(** * BlofinTrader: the band strategy, its position sizing and its input validation

  A shallow embedding of [strategy.py] ([BandStrategy]), [position_calculator.py]
  ([PositionCalculator]) and [utils.py] ([validate_input]).

  Numbers.  Python [float] prices and sizes are modelled by exact rationals
  ([Q]); [int] leverage by [Z].  NaN, infinities and binary rounding error
  are outside the model; the one NaN the code produces on purpose (the
  warm-up of the 21-candle rolling mean) is an [option].  Where a result
  is pinned against the raw quotient of a float division
  ([PositionCalculator.calculate_position_size_with]), the float product
  and quotient are parameters, so that what they round to is left open.
  Candle times are integers, milliseconds since the epoch, as the exchange
  delivers them.

  Effects.  [get_signal] mutates [self]; here it returns the new strategy
  object next to its result.  A raised exception is the left summand. *)

From Stdlib Require Import ZArith QArith Qround Qabs Qminmax.
From Stdlib Require Import List Bool String Ascii Lia Lqa.
From Stdlib Require Import Morphisms Setoid.
Import ListNotations.

Local Open Scope Q_scope.

(** ** Python primitives *)

Module Py.

(** Exceptions the embedded functions can raise. *)
Inductive exn : Type :=
| ValueError (msg : string)
| ZeroDivisionError.

Definition result (A : Type) : Type := (exn + A)%type.

(** [x < y] on numbers, as a boolean. *)
Definition ltb (x y : Q) : bool := negb (Qle_bool y x).

(** [x <= y] on numbers, as a boolean. *)
Definition leb (x y : Q) : bool := Qle_bool x y.

(** Nearest integer, ties to the even neighbour. *)
Definition round_half_even (x : Q) : Z :=
  let f := Qfloor x in
  match Qcompare (x - inject_Z f) (1 # 2) with
  | Lt => f
  | Gt => (f + 1)%Z
  | Eq => if Z.even f then f else (f + 1)%Z
  end.

(** [10 ** ndigits]. *)
Definition pow10 (ndigits : nat) : Q := inject_Z (10 ^ Z.of_nat ndigits).

(** [round(x, ndigits)]: the nearest multiple of [10 ** -ndigits], ties to
    even. *)
Definition round (x : Q) (ndigits : nat) : Q :=
  inject_Z (round_half_even (x * pow10 ndigits)) / pow10 ndigits.

(** [s.endswith(suffix)]. *)
Definition endswith (s suffix : string) : bool :=
  let n := String.length s in
  let m := String.length suffix in
  if (m <=? n)%nat then String.eqb (substring (n - m) m s) suffix else false.

(** [d.get(k)] on a dict kept as an association list. *)
Fixpoint dict_get {V : Type} (d : list (string * V)) (k : string) : option V :=
  match d with
  | [] => None
  | (k', v) :: d' => if String.eqb k k' then Some v else dict_get d' k
  end.

End Py.

(** ** utils.py *)

Module Utils.

Import Py.

(** [validate_input]: the checks run in this order, the first failing one
    raises. *)
Definition validate_input (symbol : string) (position_size : Q) (leverage : Z)
    (tp_percentage sl_percentage : Q) : result unit :=
  if leb position_size 0 then
    inl (ValueError "Position size must be positive")
  else if (leverage <? 1)%Z then
    inl (ValueError "Leverage must be at least 1")
  else if leb tp_percentage 0 || leb sl_percentage 0 then
    inl (ValueError "TP and SL percentages must be positive")
  else if negb (endswith symbol "-USDT") then
    inl (ValueError "Symbol must be in format XXX-USDT")
  else inr tt.

End Utils.

(** ** position_calculator.py *)

Module PositionCalculator.

Import Py.

(** Minimum amounts for different trading pairs. *)
Definition MIN_AMOUNTS : list (string * Q) :=
  [ ("BTC-USDT"%string, 1 # 10);
    ("ETH-USDT"%string, 1);
    ("DEFAULT"%string, 1) ].

(** [MIN_AMOUNTS.get(symbol, MIN_AMOUNTS['DEFAULT'])]; the key ['DEFAULT'] is
    in the table, so the subscript never raises. *)
Definition get_minimum_amount (symbol : string) : Q :=
  let default :=
    match dict_get MIN_AMOUNTS "DEFAULT" with Some v => v | None => 0 end in
  match dict_get MIN_AMOUNTS symbol with
  | Some v => v
  | None => default
  end.

(** [calculate_position_size(price, usd_size, leverage, symbol)].  [fmul]
    and [fdiv] are the float product and the float quotient of line 26:
    the code gets the nearest doubles, and nothing is assumed here about
    what they round to. *)
Definition calculate_position_size_with (fmul fdiv : Q -> Q -> Q)
    (price usd_size : Q) (leverage : Z) (symbol : string) : result Q :=
  if Qeq_bool price 0 then inl ZeroDivisionError
  else
    let position_size := fdiv (fmul usd_size (inject_Z leverage)) price in
    let min_amount := get_minimum_amount symbol in
    (* Round to 4 decimal places for comparison *)
    let position_size := round position_size 4 in
    let position_size :=
      if ltb position_size min_amount then min_amount else position_size in
    inr (round position_size 8).

(** The same with the exact product and the exact quotient. *)
Definition calculate_position_size : Q -> Q -> Z -> string -> result Q :=
  calculate_position_size_with Qmult Qdiv.

End PositionCalculator.

(** ** strategy.py *)

Module Strategy.

Import Py.

(** The two values of a signal, ['long'] and ['short']. *)
Inductive signal : Type := long | short.

(** A row of the candle frame; [timestamp] is the frame's index. *)
Record Candle : Type := mkCandle {
  timestamp : Z;
  open : Q;
  high : Q;
  low : Q;
  close : Q;
  vol : Q
}.

(** A row once the indicator columns are added.  [SMA21] is [None] where
    pandas has NaN. *)
Record Row : Type := mkRow {
  candle : Candle;
  EMA34 : Q;
  SMA21 : option Q;
  upper_band : Q;
  lower_band : Q
}.

Definition DataFrame : Type := list Row.

(** [row.name]: the index label of a row. *)
Definition name (r : Row) : Z := timestamp (candle r).

(** The [bands] dict of [calculate_entry_levels], keys ['upper'], ['lower']. *)
Record Bands : Type := mkBands { upper : Q; lower : Q }.

Record BandStrategy : Type := mkBandStrategy {
  position_size_usd : Q;
  leverage : Z;
  tp_multiplier : Q;
  sl_multiplier : Q;
  active_position : option unit;
  last_signal_candle : option Z;
  pending_signal : option signal
}.

(** [BandStrategy.__init__]: seven assignments, none of which can raise. *)
Definition init (position_size_usd : Q) (leverage : Z)
    (tp_multiplier sl_multiplier : Q) : result BandStrategy :=
  inr {| position_size_usd := position_size_usd;
         leverage := leverage;
         tp_multiplier := tp_multiplier;
         sl_multiplier := sl_multiplier;
         active_position := None;
         last_signal_candle := None;
         pending_signal := None |}.

(** The constructor's defaults: [BandStrategy()]. *)
Definition default : BandStrategy :=
  {| position_size_usd := 100; leverage := 3;
     tp_multiplier := 2; sl_multiplier := 1;
     active_position := None; last_signal_candle := None;
     pending_signal := None |}.

(** *** calculate_indicators *)

(** [ewm(span, adjust=False).mean()]: y0 = x0, y(t) = (1 - a) y(t-1) + a x(t)
    with a = 2 / (span + 1). *)
Definition alpha (span : Z) : Q := 2 / (inject_Z span + 1).

Fixpoint ewm_from (a prev : Q) (xs : list Q) : list Q :=
  match xs with
  | [] => []
  | x :: xs' =>
      let y := (1 - a) * prev + a * x in
      y :: ewm_from a y xs'
  end.

Definition ewm_mean (span : Z) (xs : list Q) : list Q :=
  match xs with
  | [] => []
  | x :: xs' => x :: ewm_from (alpha span) x xs'
  end.

Definition mean (xs : list Q) : Q :=
  fold_right Qplus 0 xs / inject_Z (Z.of_nat (List.length xs)).

(** [rolling(window).mean()]: NaN until [window] values were seen, then the
    mean of the last [window].  [seen] holds the values so far, newest
    first. *)
Fixpoint rolling_from (window : nat) (seen xs : list Q) : list (option Q) :=
  match xs with
  | [] => []
  | x :: xs' =>
      let seen' := x :: seen in
      (if (List.length seen' <? window)%nat then None
       else Some (mean (firstn window seen')))
      :: rolling_from window seen' xs'
  end.

Definition rolling_mean (window : nat) (xs : list Q) : list (option Q) :=
  rolling_from window [] xs.

(** [df[['EMA34', 'SMA21']].max(axis=1)] and [.min(axis=1)]: NaN is
    skipped. *)
Definition row_max (e : Q) (s : option Q) : Q :=
  match s with Some v => Qmax e v | None => e end.

Definition row_min (e : Q) (s : option Q) : Q :=
  match s with Some v => Qmin e v | None => e end.

(** A cell that is not NaN. *)
Definition has_value (s : option Q) : bool :=
  match s with Some _ => true | None => false end.

(** [df.dropna()]: only [SMA21] can hold NaN. *)
Definition dropna (df : DataFrame) : DataFrame :=
  filter (fun r => has_value (SMA21 r)) df.

Definition add_columns (df : list Candle) : DataFrame :=
  let closes := map close df in
  map (fun '(c, (e, s)) => mkRow c e s (row_max e s) (row_min e s))
      (combine df (combine (ewm_mean 34 closes) (rolling_mean 21 closes))).

Definition calculate_indicators (df : list Candle) : DataFrame :=
  match df with
  | [] => []
  | _ :: _ => dropna (add_columns df)
  end.

(** *** get_signal *)

(** [timedelta(minutes=m)], in the unit of the index. *)
Definition timedelta_minutes (m : Z) : Z := (m * 60000)%Z.

(** [df.iloc[i]] for a negative position [i], counted from the end. *)
Definition iloc (df : DataFrame) (i : Z) : option Row :=
  let n := Z.of_nat (List.length df) in
  if (i <? 0)%Z then
    if (0 <=? n + i)%Z then nth_error df (Z.to_nat (n + i)) else None
  else nth_error df (Z.to_nat i).

(** The candle on which a signal armed at [last_signal_candle] is due. *)
Definition expected_next_candle (last_signal_candle : Z) : Z :=
  (last_signal_candle + timedelta_minutes 5)%Z.

Definition clear_pending (self : BandStrategy) : BandStrategy :=
  {| position_size_usd := position_size_usd self;
     leverage := leverage self;
     tp_multiplier := tp_multiplier self;
     sl_multiplier := sl_multiplier self;
     active_position := active_position self;
     last_signal_candle := None;
     pending_signal := None |}.

Definition set_pending (self : BandStrategy) (s : signal) (t : Z) : BandStrategy :=
  {| position_size_usd := position_size_usd self;
     leverage := leverage self;
     tp_multiplier := tp_multiplier self;
     sl_multiplier := sl_multiplier self;
     active_position := active_position self;
     last_signal_candle := Some t;
     pending_signal := Some s |}.

(** [get_signal(df)]: the strategy after the call and the returned signal. *)
Definition get_signal (self : BandStrategy) (df : DataFrame)
    : BandStrategy * option signal :=
  if (List.length df <? 2)%nat then (self, None)
  else
    match iloc df (-1), iloc df (-2) with
    | Some current, Some prev =>
        match pending_signal self, last_signal_candle self with
        | Some pending, Some armed_at =>
            (* Check if current candle is exactly the next one after signal *)
            let expected := expected_next_candle armed_at in
            let current_time := name current in
            if (current_time =? expected)%Z then
              (clear_pending self, Some pending)
            else if (current_time >? expected)%Z then
              (clear_pending self, None)
            else (self, None)
        | _, _ =>
            (* Check if the previous candle closed outside the bands *)
            let prev_above_bands := ltb (upper_band prev) (close (candle prev)) in
            let prev_below_bands := ltb (close (candle prev)) (lower_band prev) in
            if prev_above_bands || prev_below_bands then
              (set_pending self (if prev_above_bands then long else short)
                           (name prev), None)
            else (self, None)
        end
    | _, _ => (self, None)  (* not reached: the frame has two rows *)
    end.

(** *** calculate_entry_levels *)

(** Lines 107 to 118: [tp_price] and [sl_price] as they stand before the
    [return] statement rounds them. *)
Definition price_levels (self : BandStrategy) (current_price : Q)
    (bands : Bands) (is_long : bool) : Q * Q :=
  let band_distance := Qabs (upper bands - lower bands) in
  if is_long then
    let tp_distance := band_distance * tp_multiplier self in
    let sl_distance := band_distance * sl_multiplier self in
    let tp_price := current_price + tp_distance in
    let sl_price := current_price - sl_distance in
    (tp_price, sl_price)
  else
    let tp_distance := band_distance * tp_multiplier self in
    let sl_distance := band_distance * sl_multiplier self in
    let tp_price := current_price - tp_distance in
    let sl_price := current_price + sl_distance in
    (tp_price, sl_price).

(** [calculate_entry_levels(current_price, bands, is_long)]: the pair
    (take profit, stop loss). *)
Definition calculate_entry_levels (self : BandStrategy) (current_price : Q)
    (bands : Bands) (is_long : bool) : Q * Q :=
  let '(tp_price, sl_price) := price_levels self current_price bands is_long in
  (round tp_price 4, round sl_price 4).

(** *** A run of the detector *)

(** The polling loop calls [get_signal] once per fetched frame, on the same
    strategy object: the strategy after a series of calls. *)
Definition after_calls (self : BandStrategy) (dfs : list DataFrame)
    : BandStrategy :=
  fold_left (fun s df => fst (get_signal s df)) dfs self.

(** The test of lines 87 to 92 on the previous candle: which signal, if any,
    its close outside the band arms. *)
Definition breakout (prev : Row) : option signal :=
  if ltb (upper_band prev) (close (candle prev)) then Some long
  else if ltb (close (candle prev)) (lower_band prev) then Some short
  else None.

(** The paths through [get_signal], one constructor per way to reach a
    [return]: what the call leaves in the strategy and what it returns. *)
Inductive path (self : BandStrategy) (df : DataFrame)
    : BandStrategy * option signal -> Prop :=
| path_short_frame :
    (List.length df < 2)%nat ->
    path self df (self, None)
| path_fire (pending : signal) (armed_at : Z) (current : Row) :
    (2 <= List.length df)%nat ->
    pending_signal self = Some pending ->
    last_signal_candle self = Some armed_at ->
    iloc df (-1) = Some current ->
    name current = (armed_at + 300000)%Z ->
    path self df (clear_pending self, Some pending)
| path_discard (pending : signal) (armed_at : Z) (current : Row) :
    (2 <= List.length df)%nat ->
    pending_signal self = Some pending ->
    last_signal_candle self = Some armed_at ->
    iloc df (-1) = Some current ->
    (name current > armed_at + 300000)%Z ->
    path self df (clear_pending self, None)
| path_wait (pending : signal) (armed_at : Z) (current : Row) :
    (2 <= List.length df)%nat ->
    pending_signal self = Some pending ->
    last_signal_candle self = Some armed_at ->
    iloc df (-1) = Some current ->
    (name current < armed_at + 300000)%Z ->
    path self df (self, None)
| path_arm (prev : Row) (s : signal) :
    (2 <= List.length df)%nat ->
    pending_signal self = None \/ last_signal_candle self = None ->
    iloc df (-2) = Some prev ->
    breakout prev = Some s ->
    path self df (set_pending self s (name prev), None)
| path_idle (prev : Row) :
    (2 <= List.length df)%nat ->
    pending_signal self = None \/ last_signal_candle self = None ->
    iloc df (-2) = Some prev ->
    breakout prev = None ->
    path self df (self, None).

(** A call arms when the strategy holds a pending signal afterwards and
    the pair (pending signal, armed time) is not the one it held before. *)
Definition arms (self : BandStrategy) (df : DataFrame) : Prop :=
  let self' := fst (get_signal self df) in
  pending_signal self' <> None /\
  (pending_signal self', last_signal_candle self')
    <> (pending_signal self, last_signal_candle self).

End Strategy.

(** ** Sample data *)

Module Samples.

Import Py Strategy.

(** A candle closing at [c], with both averages at 100 and the band drawn
    at [95, 105]. *)
Definition row_at (t : Z) (c : Q) : Row :=
  mkRow (mkCandle t 100 (Qmax 100 c) (Qmin 100 c) c 0) 100 (Some 100) 105 95.

(** A strategy holding a long signal that was armed on the candle of time 0. *)
Definition armed : BandStrategy := set_pending default long 0.

(** A strategy whose two multipliers are both 1. *)
Definition unit_multipliers : BandStrategy :=
  {| position_size_usd := 100; leverage := 3;
     tp_multiplier := 1; sl_multiplier := 1;
     active_position := None; last_signal_candle := None;
     pending_signal := None |}.

(** [n] five-minute candles, all closing at 100. *)
Definition flat_candles (n : nat) : list Candle :=
  map (fun i => mkCandle (Z.of_nat i * 300000) 100 100 100 100 0) (seq 0 n).

End Samples.

(** ** More Python primitives *)

Module PyMore.

Import Py.

(** The exceptions of the remaining functions: those of [Py] and the two
    that indexing raises. *)
Inductive exception : Type :=
| Base (e : exn)
| KeyError (key : string)
| IndexError.

Definition outcome (A : Type) : Type := (exception + A)%type.

Definition ret {A : Type} (x : A) : outcome A := inr x.

Definition bind {A B : Type} (c : outcome A) (k : A -> outcome B) : outcome B :=
  match c with
  | inl e => inl e
  | inr x => k x
  end.

(** [d[k]]. *)
Definition dict_index {V : Type} (d : list (string * V)) (k : string) : outcome V :=
  match dict_get d k with
  | Some v => inr v
  | None => inl (KeyError k)
  end.

(** [x / y]. *)
Definition div (x y : Q) : outcome Q :=
  if Qeq_bool y 0 then inl (Base ZeroDivisionError) else inr (x / y).

(** The builtins [max(a, b)] and [min(a, b)]: the first argument unless the
    second is strictly beyond it. *)
Definition max2 (a b : Q) : Q := if ltb a b then b else a.

Definition min2 (a b : Q) : Q := if ltb b a then b else a.

(** [max(a, b)] and [min(a, b)] when [b] may be NaN: no comparison with NaN
    holds, so the first argument is returned. *)
Definition max_nan (a : Q) (b : option Q) : Q :=
  match b with Some v => max2 a v | None => a end.

Definition min_nan (a : Q) (b : option Q) : Q :=
  match b with Some v => min2 a v | None => a end.

(** [x // y] and [x % y] on floats, for a positive [y]. *)
Definition floordiv (x y : Q) : Q := inject_Z (Qfloor (x / y)).

Definition fmod (x y : Q) : Q := x - y * floordiv x y.

(** [s.startswith(String c "")] for a one-character prefix. *)
Definition startswith_char (s : string) (c : ascii) : bool :=
  match s with
  | EmptyString => false
  | String a _ => Ascii.eqb a c
  end.

(** [s.rstrip(String c "")]: [s] without its trailing run of [c]. *)
Fixpoint rstrip (s : string) (c : ascii) : string :=
  match s with
  | EmptyString => EmptyString
  | String a s' =>
      match rstrip s' c with
      | EmptyString => if Ascii.eqb a c then EmptyString else String a EmptyString
      | t => String a t
      end
  end.

(** [String c "" * n]. *)
Fixpoint repeat_char (c : ascii) (n : nat) : string :=
  match n with
  | O => EmptyString
  | S n' => String c (repeat_char c n')
  end.

End PyMore.

Declare Scope outcome_scope.
Delimit Scope outcome_scope with outcome.
Notation "x <- c ;; k" := (PyMore.bind c (fun x => k))
  (at level 61, c at next level, right associativity) : outcome_scope.

(** ** strategy.py, the remaining methods *)

Module StrategyRest.

Import Py PyMore Strategy.

Local Open Scope outcome_scope.

(** [calculate_position_size(current_price, market_info)].  The values of
    [market_info] are taken as numbers, on which [float] is the identity. *)
Definition calculate_position_size (self : BandStrategy) (current_price : Q)
    (market_info : list (string * Q)) : outcome Q :=
  contract_value <- dict_index market_info "contractValue" ;;
  min_size <- dict_index market_info "minSize" ;;
  (* Calculate the number of contracts needed *)
  contracts <- div (position_size_usd self * inject_Z (leverage self))
                   (current_price * contract_value) ;;
  lots <- div contracts min_size ;;
  ret (max2 min_size (inject_Z (round_half_even lots) * min_size)).

(** The [position] dict; [None] and the empty dict are both falsy. *)
Definition Position : Type := list (string * string).

(** [should_close_position(df, position)]. *)
Definition should_close_position (df : DataFrame) (position : option Position)
    : outcome bool :=
  match position with
  | None => ret false
  | Some [] => ret false
  | Some pos =>
      latest <- match iloc df (-1) with
                | Some r => ret r
                | None => inl IndexError
                end ;;
      side <- dict_index pos "side" ;;
      let is_long := String.eqb side "buy" in
      (* Close long if price crosses below bands *)
      if is_long && ltb (close (candle latest)) (min_nan (EMA34 latest) (SMA21 latest))
      then ret true
      (* Close short if price crosses above bands *)
      else if negb is_long
              && ltb (max_nan (EMA34 latest) (SMA21 latest)) (close (candle latest))
      then ret true
      else ret false
  end.

End StrategyRest.

(** ** position_calculator.py, the remaining method *)

Module PositionCalculatorRest.

Import Py.

(** [calculate_tp_sl(entry_price, is_long, tp_percentage, sl_percentage)]. *)
Definition calculate_tp_sl (entry_price : Q) (is_long : bool)
    (tp_percentage sl_percentage : Q) : Q * Q :=
  let '(tp_price, sl_price) :=
    if is_long then
      (entry_price * (1 + tp_percentage / 100),
       entry_price * (1 - sl_percentage / 100))
    else
      (entry_price * (1 - tp_percentage / 100),
       entry_price * (1 + sl_percentage / 100)) in
  (round tp_price 8, round sl_price 8).

End PositionCalculatorRest.

(** ** trading_bot.py *)

Module TradingBot.

Import Py PyMore Strategy.

(** Lines 181 to 183 of [run]: the next five-minute boundary after the clock
    reading [start_time] (seconds), and how long to wait for it. *)
Definition next_candle (start_time : Q) : Q :=
  let current_minute := floordiv start_time 60 in
  (floordiv current_minute 5 + 1) * 5 * 60.

Definition wait_time (start_time : Q) : Q := next_candle start_time - start_time.

(** Line 213 of [run]: [max(1, 300 - (time.time() % 300) - 2)]. *)
Definition sleep_time (now : Q) : Q := max2 1 (300 - fmod now 300 - 2).

(** The arguments of one [api.place_order] call. *)
Record Order : Type := mkOrder {
  order_symbol : string;
  order_side : string;
  order_size : Q;
  order_take_profit : Q;
  order_stop_loss : Q;
  order_leverage : Z
}.

(** [execute_trade(signal, current_price)].  [fetched] is what
    [fetch_ohlcv()] returns during the call (empty on any fetch error) and
    [api_accepts] tells whether [api.place_order] returns rather than
    raises.  Result: the returned boolean and the orders handed to the
    API. *)
Definition execute_trade (strategy : BandStrategy) (symbol : string)
    (fetched : DataFrame) (api_accepts : Order -> bool)
    (sig : signal) (current_price : Q) : bool * list Order :=
  match fetched with
  | [] => (false, [])
  | _ :: _ =>
      match iloc fetched (-1) with
      | None => (false, [])  (* not reached: the frame is not empty *)
      | Some latest =>
          let bands := mkBands (upper_band latest) (lower_band latest) in
          let is_long := match sig with long => true | short => false end in
          let '(tp_price, sl_price) :=
            calculate_entry_levels strategy current_price bands is_long in
          let side := if is_long then "buy"%string else "sell"%string in
          if Qeq_bool current_price 0 then (false, [])  (* ZeroDivisionError *)
          else
            let size := position_size_usd strategy / current_price in
            let order := mkOrder symbol side size tp_price sl_price
                                 (leverage strategy) in
            (api_accepts order, [order])
      end
  end.

End TradingBot.

(** ** blofin_api.py *)

Module BlofinAPI.

Import Py PyMore.

(** [base_url.rstrip('/')] of [__init__]. *)
Definition init_base_url (base_url : string) : string := rstrip base_url "/".

(** Lines 53 and 54 of [_request]: the endpoint with a leading slash. *)
Definition request_endpoint (endpoint : string) : string :=
  if negb (startswith_char endpoint "/") then String "/" endpoint else endpoint.

(** Line 56 of [_request]. *)
Definition request_url (base_url endpoint : string) : string :=
  (init_base_url base_url ++ request_endpoint endpoint)%string.

(** One call of [_request]: method, endpoint and JSON body. *)
Record Request : Type := mkRequest {
  req_method : string;
  req_endpoint : string;
  req_data : list (string * string)
}.

(** [data.update({...})]: later pairs replace earlier ones with the same
    key, new keys go to the end. *)
Fixpoint dict_set (d : list (string * string)) (k v : string)
    : list (string * string) :=
  match d with
  | [] => [(k, v)]
  | (k', v') :: d' =>
      if String.eqb k k' then (k, v) :: d' else (k', v') :: dict_set d' k v
  end.

Definition dict_update (d new : list (string * string)) : list (string * string) :=
  fold_left (fun acc kv => dict_set acc (fst kv) (snd kv)) new d.

Section Transport.

(** [str] on a float and on an int. *)
Variable str_float : Q -> string.
Variable str_int : Z -> string.

(** What the exchange answers: [transport sent r] is the outcome of sending
    [r] after the requests [sent]. *)
Variable Response : Type.
Variable transport : list Request -> Request -> outcome Response.

(** [_request(method, endpoint, data=data)]: the requests sent so far are
    threaded through. *)
Definition request (sent : list Request) (method endpoint : string)
    (data : list (string * string)) : list Request * outcome Response :=
  let r := mkRequest method (request_endpoint endpoint) data in
  (sent ++ [r], transport sent r).

(** [set_leverage(symbol, leverage)]. *)
Definition set_leverage (sent : list Request) (symbol : string) (leverage : Z)
    : list Request * outcome Response :=
  let endpoint := "/account/set-leverage"%string in
  let data := [("instId"%string, symbol); ("lever"%string, str_int leverage)] in
  request sent "POST" endpoint data.

(** The body of the order request, lines 115 to 134. *)
Definition order_data (symbol side : string) (size : Q)
    (take_profit stop_loss : option Q) : list (string * string) :=
  let data := [("instId"%string, symbol);
               ("tdMode"%string, "isolated"%string);
               ("side"%string, side);
               ("ordType"%string, "market"%string);
               ("sz"%string, str_float size)] in
  let data :=
    match take_profit with
    | Some tp => dict_update data [("tpTriggerPrice"%string, str_float tp);
                                   ("tpOrderPrice"%string, "-1"%string)]
    | None => data
    end in
  match stop_loss with
  | Some sl => dict_update data [("slTriggerPrice"%string, str_float sl);
                                 ("slOrderPrice"%string, "-1"%string)]
  | None => data
  end.

(** [place_order(symbol, side, size, take_profit, stop_loss, leverage)]. *)
Definition place_order (sent : list Request) (symbol side : string) (size : Q)
    (take_profit stop_loss : option Q) (leverage : Z)
    : list Request * outcome Response :=
  (* First, set the leverage *)
  match set_leverage sent symbol leverage with
  | (sent', inl e) => (sent', inl e)
  | (sent', inr _) =>
      request sent' "POST" "/trade/order"
              (order_data symbol side size take_profit stop_loss)
  end.

End Transport.

End BlofinAPI.

(** ** test_bands.py *)

Module TestBands.

Import Py PyMore.

Inductive Condition : Type := ABOVE_BANDS | BELOW_BANDS | BETWEEN_BANDS.

Inductive Crossover : Type := BULLISH_CROSSOVER | BEARISH_CROSSOVER.

(** The dict [analyze_market_conditions] returns. *)
Record Analysis : Type := mkAnalysis {
  current_price : Q;
  upper_band : Q;
  lower_band : Q;
  condition : Condition;
  crossover : option Crossover;
  band_distance : Q;
  price_to_upper : Q;
  price_to_lower : Q
}.

(** [analyze_market_conditions(df)]; the rows carry [close], [EMA34] and
    [SMA21]. *)
Definition analyze_market_conditions (df : Strategy.DataFrame) : outcome Analysis :=
  match Strategy.iloc df (-1), Strategy.iloc df (-2) with
  | Some latest, Some prev =>
      let upper_band := max_nan (Strategy.EMA34 latest) (Strategy.SMA21 latest) in
      let lower_band := min_nan (Strategy.EMA34 latest) (Strategy.SMA21 latest) in
      let current_price := Strategy.close (Strategy.candle latest) in
      (* Determine market condition *)
      let condition :=
        if ltb upper_band current_price then ABOVE_BANDS
        else if ltb current_price lower_band then BELOW_BANDS
        else BETWEEN_BANDS in
      (* Check for crossovers *)
      let prev_upper := max_nan (Strategy.EMA34 prev) (Strategy.SMA21 prev) in
      let prev_lower := min_nan (Strategy.EMA34 prev) (Strategy.SMA21 prev) in
      let prev_price := Strategy.close (Strategy.candle prev) in
      let crossover :=
        if leb prev_price prev_upper && ltb upper_band current_price
        then Some BULLISH_CROSSOVER
        else if leb prev_lower prev_price && ltb current_price lower_band
        then Some BEARISH_CROSSOVER
        else None in
      ret (mkAnalysis current_price upper_band lower_band condition crossover
                      (upper_band - lower_band)
                      (upper_band - current_price)
                      (current_price - lower_band))
  | _, _ => inl IndexError
  end.

End TestBands.

(** ** Series of polls *)

Module Polls.

Import Strategy.

(** The pending signal and its arming time are set together or not at all. *)
Definition paired (self : BandStrategy) : Prop :=
  (pending_signal self = None /\ last_signal_candle self = None) \/
  (exists (sig : signal) (T : Z),
      pending_signal self = Some sig /\ last_signal_candle self = Some T).

(** A series of frames as one poll per new candle delivers them: every
    frame has at least two rows, its last candle is at least five minutes
    after the one before it, and is later than the last candle of the
    frame polled before ([previous]). *)
Fixpoint advancing (previous : option Z) (dfs : list DataFrame) : bool :=
  match dfs with
  | [] => true
  | df :: dfs' =>
      match iloc df (-1), iloc df (-2) with
      | Some current, Some prev =>
          (2 <=? List.length df)%nat
          && (name prev + 300000 <=? name current)%Z
          && match previous with
             | Some t => (t <? name current)%Z
             | None => true
             end
          && advancing (Some (name current)) dfs'
      | _, _ => false
      end
  end.

(** A cell that, unless it is NaN, lies between two bounds. *)
Definition cell_between (lo hi : Q) (cell : option Q) : Prop :=
  match cell with
  | Some m => lo <= m <= hi
  | None => True
  end.

End Polls.

(** ** The two averages, index by index *)

Module Snapshot.

(** The smoothing factor of an exponential average of span 34. *)
Definition k : Q := 2 / (34 + 1).

(** The exponential average at index [i] of a series of closes: seeded with
    the first close, then [fastAvg[i] = close[i] * k + fastAvg[i-1] * (1 - k)]. *)
Fixpoint fastAvg (closes : list Q) (i : nat) : Q :=
  match i with
  | O => nth 0 closes 0
  | S i' => nth i closes 0 * k + fastAvg closes i' * (1 - k)
  end.

(** The simple average at index [i]: the arithmetic mean of the 21 closes
    [close[i-20 .. i]]. *)
Definition slowAvg (closes : list Q) (i : nat) : Q :=
  fold_right Qplus 0 (map (fun t => nth t closes 0) (seq (i - 20) 21)) / 21.

End Snapshot.

(** ** Facts about the primitives *)

Section PyFacts.

Import Py.

Lemma ltb_lt (x y : Q) : ltb x y = true <-> x < y.
Proof.
  unfold ltb. rewrite negb_true_iff.
  split; intro H.
  - apply Qnot_le_lt. intro Hle. apply Qle_bool_iff in Hle. congruence.
  - destruct (Qle_bool y x) eqn:E; [|reflexivity].
    apply Qle_bool_iff in E. lra.
Qed.

Lemma ltb_ge (x y : Q) : ltb x y = false <-> y <= x.
Proof.
  unfold ltb. rewrite negb_false_iff. apply Qle_bool_iff.
Qed.

Lemma pow10_pos (n : nat) : 0 < pow10 n.
Proof.
  unfold pow10. change 0 with (inject_Z 0). rewrite <- Zlt_Qlt.
  apply Z.pow_pos_nonneg; lia.
Qed.

Lemma floor_bounds (x : Q) :
  inject_Z (Qfloor x) <= x /\ x < inject_Z (Qfloor x) + 1.
Proof.
  split; [apply Qfloor_le|].
  pose proof (Qlt_floor x) as H. rewrite inject_Z_plus in H. exact H.
Qed.

(** The rounded integer is within one half of the argument. *)
Lemma round_half_even_near (x : Q) :
  inject_Z (round_half_even x) - (1 # 2) <= x /\
  x <= inject_Z (round_half_even x) + (1 # 2).
Proof.
  unfold round_half_even.
  destruct (floor_bounds x) as [Hlo Hhi].
  destruct (x - inject_Z (Qfloor x) ?= 1 # 2) eqn:E.
  - rewrite <- Qeq_alt in E.
    destruct (Z.even (Qfloor x)); [|rewrite inject_Z_plus; change (inject_Z 1) with 1];
      split; lra.
  - rewrite <- Qlt_alt in E. split; lra.
  - rewrite <- Qgt_alt in E. rewrite inject_Z_plus. change (inject_Z 1) with 1. split; lra.
Qed.

Lemma round_half_even_inject_Z (z : Z) : round_half_even (inject_Z z) = z.
Proof.
  unfold round_half_even. rewrite Qfloor_Z.
  assert (E : (inject_Z z - inject_Z z ?= 1 # 2) = Lt).
  { rewrite <- Qlt_alt. lra. }
  rewrite E. reflexivity.
Qed.

#[global] Instance round_half_even_comp : Proper (Qeq ==> eq) round_half_even.
Proof.
  intros x y Hxy. unfold round_half_even.
  rewrite (Qfloor_comp _ _ Hxy).
  assert (E : x - inject_Z (Qfloor y) == y - inject_Z (Qfloor y)) by lra.
  rewrite (Qcompare_comp _ _ E _ _ (Qeq_refl (1 # 2))). reflexivity.
Qed.

Lemma round_half_even_mono (x y : Q) :
  x <= y -> (round_half_even x <= round_half_even y)%Z.
Proof.
  intro Hxy.
  pose proof (Qfloor_resp_le _ _ Hxy) as Hf.
  destruct (floor_bounds x) as [Hxlo Hxhi].
  destruct (floor_bounds y) as [Hylo Hyhi].
  assert (Hx1 : (round_half_even x <= Qfloor x + 1)%Z).
  { unfold round_half_even. destruct (_ ?= _); [destruct (Z.even _)| |]; lia. }
  assert (Hy0 : (Qfloor y <= round_half_even y)%Z).
  { unfold round_half_even. destruct (_ ?= _); [destruct (Z.even _)| |]; lia. }
  destruct (Z.eq_dec (Qfloor x) (Qfloor y)) as [Heq|Hne]; [|lia].
  unfold round_half_even. rewrite <- Heq.
  destruct (x - inject_Z (Qfloor x) ?= 1 # 2) eqn:Ex;
    destruct (y - inject_Z (Qfloor x) ?= 1 # 2) eqn:Ey;
    try (rewrite <- Qeq_alt in Ex); try (rewrite <- Qlt_alt in Ex); try (rewrite <- Qgt_alt in Ex);
    try (rewrite <- Qeq_alt in Ey); try (rewrite <- Qlt_alt in Ey); try (rewrite <- Qgt_alt in Ey);
    try (destruct (Z.even (Qfloor x))); try lia; exfalso; lra.
Qed.

#[global] Instance round_comp : Proper (Qeq ==> eq ==> Qeq) round.
Proof.
  intros x y Hxy n m <-. unfold round.
  assert (E : x * pow10 n == y * pow10 n) by (rewrite Hxy; reflexivity).
  rewrite (round_half_even_comp _ _ E). reflexivity.
Qed.

(** A multiple of [10 ** -n] is left alone by [round(_, n)]. *)
Lemma round_multiple (k : Z) (n : nat) :
  round (inject_Z k / pow10 n) n == inject_Z k / pow10 n.
Proof.
  unfold round.
  assert (E : inject_Z k / pow10 n * pow10 n == inject_Z k).
  { pose proof (pow10_pos n). field. lra. }
  rewrite (round_half_even_comp _ _ E), round_half_even_inject_Z. reflexivity.
Qed.

Lemma round_mono (x y : Q) (n : nat) : x <= y -> round x n <= round y n.
Proof.
  intro Hxy. unfold round.
  pose proof (pow10_pos n) as Hp.
  assert (Hs : x * pow10 n <= y * pow10 n).
  { apply Qmult_le_compat_r; lra. }
  apply round_half_even_mono in Hs. rewrite Zle_Qle in Hs.
  unfold Qdiv. apply Qmult_le_compat_r; [exact Hs|].
  apply Qlt_le_weak, Qinv_lt_0_compat, Hp.
Qed.

(** [round(x, n)] is within half a unit in the n-th place of [x]. *)
Lemma round_near (x : Q) (n : nat) :
  Qabs (round x n - x) <= (1 # 2) / pow10 n.
Proof.
  pose proof (pow10_pos n) as Hp.
  destruct (round_half_even_near (x * pow10 n)) as [Hlo Hhi].
  set (k := inject_Z (round_half_even (x * pow10 n))) in *.
  assert (Hinv : 0 < / pow10 n) by (apply Qinv_lt_0_compat, Hp).
  apply Qabs_Qle_condition. unfold round. fold k.
  assert (E1 : k / pow10 n - x == (k - x * pow10 n) * / pow10 n) by (field; lra).
  assert (E2 : (1 # 2) / pow10 n == (1 # 2) * / pow10 n) by (field; lra).
  rewrite E1, E2. split.
  - setoid_replace (- ((1 # 2) * / pow10 n)) with ((- (1 # 2)) * / pow10 n) by ring.
    apply Qmult_le_compat_r; lra.
  - apply Qmult_le_compat_r; lra.
Qed.

(** A value with [n] decimals keeps them when rounded to [n + m]. *)
Lemma round_round (x : Q) (n m : nat) :
  round (round x n) (n + m) == round x n.
Proof.
  set (k := round_half_even (x * pow10 n)).
  assert (E : round x n == inject_Z (k * 10 ^ Z.of_nat m) / pow10 (n + m)).
  { unfold round. fold k. unfold pow10.
    rewrite Nat2Z.inj_add, Z.pow_add_r by lia.
    rewrite !inject_Z_mult.
    pose proof (pow10_pos n) as Hn. pose proof (pow10_pos m) as Hm.
    unfold pow10 in Hn, Hm. field. split; lra. }
  rewrite E at 1. rewrite round_multiple. symmetry. exact E.
Qed.

End PyFacts.

(** ** Facts about the signal detector *)

Section DetectorFacts.

Import Py Strategy.

Lemma iloc_last_two (df : DataFrame) :
  (2 <= List.length df)%nat ->
  exists current prev, iloc df (-1) = Some current /\ iloc df (-2) = Some prev.
Proof.
  intro Hlen. unfold iloc.
  assert (H1 : (0 <=? Z.of_nat (List.length df) + -1)%Z = true)
    by (apply Z.leb_le; lia).
  assert (H2 : (0 <=? Z.of_nat (List.length df) + -2)%Z = true)
    by (apply Z.leb_le; lia).
  cbn [Z.ltb Z.compare]. rewrite H1, H2.
  destruct (nth_error df (Z.to_nat (Z.of_nat (List.length df) + -1))) eqn:E1.
  - destruct (nth_error df (Z.to_nat (Z.of_nat (List.length df) + -2))) eqn:E2.
    + eauto.
    + apply nth_error_None in E2. lia.
  - apply nth_error_None in E1. lia.
Qed.

(** With no pending signal to resolve, the previous candle decides. *)
Lemma arm_or_idle (self : BandStrategy) (df : DataFrame) (prev : Row) :
  (2 <= List.length df)%nat ->
  pending_signal self = None \/ last_signal_candle self = None ->
  iloc df (-2) = Some prev ->
  path self df
    (let prev_above_bands := ltb (upper_band prev) (close (candle prev)) in
     let prev_below_bands := ltb (close (candle prev)) (lower_band prev) in
     if prev_above_bands || prev_below_bands then
       (set_pending self (if prev_above_bands then long else short) (name prev), None)
     else (self, None)).
Proof.
  intros Hlen Hno Hprev. cbv zeta.
  destruct (ltb (upper_band prev) (close (candle prev))) eqn:Ea; cbn [orb].
  - eapply path_arm; eauto. unfold breakout. now rewrite Ea.
  - destruct (ltb (close (candle prev)) (lower_band prev)) eqn:Eb.
    + eapply path_arm; eauto. unfold breakout. now rewrite Ea, Eb.
    + eapply path_idle; eauto. unfold breakout. now rewrite Ea, Eb.
Qed.

(** Every call follows one of the paths. *)
Lemma get_signal_path (self : BandStrategy) (df : DataFrame) :
  path self df (get_signal self df).
Proof.
  unfold get_signal.
  destruct (List.length df <? 2)%nat eqn:Hlen.
  - apply Nat.ltb_lt in Hlen. now constructor.
  - apply Nat.ltb_ge in Hlen.
    destruct (iloc_last_two df Hlen) as (current & prev & Hc & Hp).
    rewrite Hc, Hp.
    destruct (pending_signal self) as [pending|] eqn:Epend;
      [destruct (last_signal_candle self) as [armed_at|] eqn:Elast|].
    + unfold expected_next_candle, timedelta_minutes.
      change (5 * 60000)%Z with 300000%Z.
      destruct (name current =? armed_at + 300000)%Z eqn:Eeq.
      * apply Z.eqb_eq in Eeq. eapply path_fire; eauto.
      * destruct (name current >? armed_at + 300000)%Z eqn:Egt.
        -- eapply path_discard; eauto. apply Z.gtb_gt. exact Egt.
        -- apply Z.eqb_neq in Eeq. rewrite Z.gtb_ltb in Egt.
           apply Z.ltb_ge in Egt.
           eapply path_wait; eauto. lia.
    + apply arm_or_idle; auto.
    + apply arm_or_idle; auto.
Qed.

(** The call on a strategy that holds a pending signal, by the time of the
    last candle. *)
Lemma get_signal_pending
    (self : BandStrategy) (sig : signal) (T : Z) (df : DataFrame) (current : Row) :
  pending_signal self = Some sig ->
  last_signal_candle self = Some T ->
  (2 <= List.length df)%nat ->
  iloc df (-1) = Some current ->
  get_signal self df
  = if (name current =? T + 300000)%Z then (clear_pending self, Some sig)
    else if (name current >? T + 300000)%Z then (clear_pending self, None)
    else (self, None).
Proof.
  intros Hps Hlc Hlen Hcur.
  destruct (iloc_last_two df Hlen) as (current' & prev & Hc & Hp).
  unfold get_signal.
  apply Nat.ltb_ge in Hlen. rewrite Hlen, Hc, Hp, Hps, Hlc.
  assert (current' = current) by congruence. subst current'.
  reflexivity.
Qed.

(** Only the firing path returns a signal. *)
Lemma signal_comes_from_pending
    (self self' : BandStrategy) (df : DataFrame) (sig : signal) :
  get_signal self df = (self', Some sig) ->
  pending_signal self = Some sig /\ self' = clear_pending self.
Proof.
  intro Hcall.
  pose proof (get_signal_path self df) as Hp. rewrite Hcall in Hp.
  inversion Hp; subst; auto.
Qed.

Lemma state_pair_dec (a b : option signal * option Z) : {a = b} + {a <> b}.
Proof.
  decide equality.
  - decide equality. apply Z.eq_dec.
  - decide equality. decide equality.
Qed.

Lemma after_calls_snoc (self : BandStrategy) (dfs : list DataFrame) (df : DataFrame) :
  after_calls self (dfs ++ [df]) = fst (get_signal (after_calls self dfs) df).
Proof.
  unfold after_calls. rewrite fold_left_app. reflexivity.
Qed.

Lemma firstn_succ_snoc {A : Type} (l : list A) (k : nat) (x : A) :
  nth_error l k = Some x -> firstn (S k) l = firstn k l ++ [x].
Proof.
  revert k. induction l as [|a l IH]; intros [|k] H; cbn in *; try discriminate.
  - now inversion H.
  - f_equal. now apply IH.
Qed.

(** What arming is in terms of the source: the call ran the assignment of
    lines 92 and 93. *)
Lemma arms_iff (self : BandStrategy) (df : DataFrame) :
  arms self df <->
  exists prev s,
    (2 <= List.length df)%nat /\
    (pending_signal self = None \/ last_signal_candle self = None) /\
    iloc df (-2) = Some prev /\ breakout prev = Some s /\
    get_signal self df = (set_pending self s (name prev), None).
Proof.
  unfold arms. split.
  - intros [Hsome Hdiff].
    pose proof (get_signal_path self df) as Hp.
    inversion Hp as [Hl Heq | ? ? ? Hl Hps Hlc Hc Ht Heq | ? ? ? Hl Hps Hlc Hc Ht Heq
                     | ? ? ? Hl Hps Hlc Hc Ht Heq | prev s Hl Hno Hprev Hb Heq
                     | prev Hl Hno Hprev Hb Heq];
      rewrite <- Heq in Hsome, Hdiff; cbn in Hsome, Hdiff; try congruence.
    exists prev, s. auto.
  - intros (prev & s & _ & Hno & _ & _ & Heq). rewrite Heq. cbn. split.
    + discriminate.
    + destruct Hno as [Hno|Hno]; rewrite Hno; congruence.
Qed.

(** A pending signal found after [k] calls was armed by one of them. *)
Lemma pending_has_armed_call (dfs : list DataFrame) (self : BandStrategy) (sig : signal) :
  pending_signal self = None ->
  forall k,
    pending_signal (after_calls self (firstn k dfs)) = Some sig ->
    exists j dfj,
      (j < k)%nat /\ nth_error dfs j = Some dfj /\
      arms (after_calls self (firstn j dfs)) dfj /\
      pending_signal (fst (get_signal (after_calls self (firstn j dfs)) dfj)) = Some sig.
Proof.
  intros Hinit k. induction k as [|k IH]; intro Hk.
  - cbn in Hk. congruence.
  - destruct (nth_error dfs k) as [df|] eqn:Enth.
    + rewrite (firstn_succ_snoc _ _ _ Enth), after_calls_snoc in Hk.
      set (before := after_calls self (firstn k dfs)) in *.
      destruct (state_pair_dec
                  (pending_signal (fst (get_signal before df)),
                   last_signal_candle (fst (get_signal before df)))
                  (pending_signal before, last_signal_candle before)) as [Esame|Ediff].
      * assert (Hb : pending_signal before = Some sig) by congruence.
        destruct (IH Hb) as (j & dfj & Hj & Hrest).
        exists j, dfj. split; [lia|exact Hrest].
      * exists k, df.
        split; [lia|]. split; [exact Enth|]. split; [|exact Hk].
        unfold arms. fold before. cbv zeta. split; [congruence|exact Ediff].
    + apply nth_error_None in Enth.
      rewrite firstn_all2 in Hk by lia.
      rewrite <- (firstn_all2 dfs (n := k)) in Hk by lia.
      destruct (IH Hk) as (j & dfj & Hj & Hrest).
      exists j, dfj. split; [lia|exact Hrest].
Qed.

End DetectorFacts.

(** ** The deferred signal: arming, firing, discarding *)

Section DetectorClaims.

Import Py Strategy Samples.

(** The requirement of two candles cannot be dropped.  A frame of a single
    candle returns at the length check of line 43, before the pending
    signal is looked at: the signal armed at time 0 is still held after a
    call whose only candle is 15 minutes later. *)
Lemma single_candle_frame_keeps_pending :
  ~ (forall (self : BandStrategy) (sig : signal) (T : Z) (df : DataFrame)
            (current : Row),
        pending_signal self = Some sig ->
        last_signal_candle self = Some T ->
        iloc df (-1) = Some current ->
        (name current > T + timedelta_minutes 5)%Z ->
        snd (get_signal self df) = None /\
        pending_signal (fst (get_signal self df)) = None).
Proof.
  intro H.
  destruct (H armed long 0%Z [row_at 900000 100] (row_at 900000 100)
              eq_refl eq_refl eq_refl eq_refl) as [_ Hcleared].
  discriminate Hcleared.
Qed.

(** C1: for every strategy holding a pending signal armed at time T and
    every call, on a frame of the two candles or more that the detector
    works on, whose last candle is strictly later than T plus the candle
    interval of five minutes, the call returns no signal and leaves neither
    a pending signal nor an armed time behind: the signal is not live after
    such a call.  A frame of fewer than two candles is no call of the
    detector proper: it returns no signal and changes nothing. *)
Theorem stale_pending_is_cleared
    (self : BandStrategy) (sig : signal) (T : Z) (df : DataFrame) :
  pending_signal self = Some sig ->
  last_signal_candle self = Some T ->
  (forall current : Row,
      (2 <= List.length df)%nat ->
      iloc df (-1) = Some current ->
      (name current > T + timedelta_minutes 5)%Z ->
      snd (get_signal self df) = None /\
      pending_signal (fst (get_signal self df)) = None /\
      last_signal_candle (fst (get_signal self df)) = None) /\
  ((List.length df < 2)%nat -> get_signal self df = (self, None)).
Proof.
  intros Hps Hlc. split.
  - intros current Hlen Hcur Hlate.
    unfold timedelta_minutes in Hlate. change (5 * 60000)%Z with 300000%Z in Hlate.
    rewrite (get_signal_pending self sig T df current Hps Hlc Hlen Hcur).
    destruct (name current =? T + 300000)%Z eqn:Eeq.
    + apply Z.eqb_eq in Eeq. lia.
    + apply Z.gtb_gt in Hlate. rewrite Hlate. cbn. auto.
  - intro Hshort. unfold get_signal.
    apply Nat.ltb_lt in Hshort. now rewrite Hshort.
Qed.

Lemma stale_pending_is_cleared_witness :
  (snd (get_signal armed [row_at 300000 100; row_at 900000 100]) = None /\
   pending_signal (fst (get_signal armed [row_at 300000 100; row_at 900000 100])) = None /\
   last_signal_candle (fst (get_signal armed [row_at 300000 100; row_at 900000 100]))
   = None) /\
  get_signal armed [row_at 900000 100] = (armed, None).
Proof.
  split.
  - apply (proj1 (stale_pending_is_cleared armed long 0%Z
                    [row_at 300000 100; row_at 900000 100] eq_refl eq_refl)
             (row_at 900000 100)).
    + cbn. lia.
    + reflexivity.
    + reflexivity.
  - apply (proj2 (stale_pending_is_cleared armed long 0%Z
                    [row_at 900000 100] eq_refl eq_refl)).
    cbn. lia.
Defined.

(** C3, as stated, fails: the claim makes the due time the arming time plus
    a configured interval.  The constructor takes no interval and line 67
    adds a fixed five minutes, so for a 15-minute interval the two
    differ. *)
Lemma expected_candle_ignores_configuration :
  ~ (forall (candleIntervalMinutes : Z) (T : Z),
        (0 < candleIntervalMinutes)%Z ->
        expected_next_candle T = (T + timedelta_minutes candleIntervalMinutes)%Z).
Proof.
  intro H. specialize (H 15%Z 0%Z eq_refl). discriminate H.
Qed.

(** C3, amended: for every strategy, whatever its configuration, and every
    pending signal armed at time T, the time the fire or discard decision
    compares the last candle with is T plus five minutes (300000 ms): on a
    frame of at least two candles the call fires exactly when the last
    candle is at that time, discards when it is later and keeps waiting
    when it is earlier. *)
Theorem expected_candle_is_five_minutes_later
    (self : BandStrategy) (sig : signal) (T : Z) (df : DataFrame) (current : Row) :
  pending_signal self = Some sig ->
  last_signal_candle self = Some T ->
  (2 <= List.length df)%nat ->
  iloc df (-1) = Some current ->
  expected_next_candle T = (T + 300000)%Z /\
  (name current = (T + 300000)%Z ->
     get_signal self df = (clear_pending self, Some sig)) /\
  ((name current > T + 300000)%Z ->
     get_signal self df = (clear_pending self, None)) /\
  ((name current < T + 300000)%Z ->
     get_signal self df = (self, None)).
Proof.
  intros Hps Hlc Hlen Hcur.
  split; [reflexivity|].
  rewrite (get_signal_pending self sig T df current Hps Hlc Hlen Hcur).
  split; [|split]; intro Htime.
  - apply Z.eqb_eq in Htime. now rewrite Htime.
  - destruct (name current =? T + 300000)%Z eqn:Eeq.
    + apply Z.eqb_eq in Eeq. lia.
    + apply Z.gtb_gt in Htime. now rewrite Htime.
  - destruct (name current =? T + 300000)%Z eqn:Eeq.
    + apply Z.eqb_eq in Eeq. lia.
    + destruct (name current >? T + 300000)%Z eqn:Egt; [|reflexivity].
      apply Z.gtb_gt in Egt. lia.
Qed.

Lemma expected_candle_is_five_minutes_later_witness :
  get_signal armed [row_at 0 110; row_at 300000 100]
    = (clear_pending armed, Some long) /\
  get_signal armed [row_at 300000 100; row_at 900000 100]
    = (clear_pending armed, None).
Proof.
  split.
  - apply (expected_candle_is_five_minutes_later armed long 0%Z
             [row_at 0 110; row_at 300000 100] (row_at 300000 100));
      try reflexivity; cbn; lia.
  - apply (expected_candle_is_five_minutes_later armed long 0%Z
             [row_at 300000 100; row_at 900000 100] (row_at 900000 100));
      try reflexivity; cbn; lia.
Defined.

(** C10: whenever a call returns a signal, that signal is the pending
    signal the strategy held when the call started, and after the call the
    strategy holds neither a pending signal nor an armed time. *)
Theorem returned_signal_was_pending
    (self self' : BandStrategy) (df : DataFrame) (sig : signal) :
  get_signal self df = (self', Some sig) ->
  pending_signal self = Some sig /\
  pending_signal self' = None /\
  last_signal_candle self' = None.
Proof.
  intro Hcall.
  destruct (signal_comes_from_pending _ _ _ _ Hcall) as [Hpend ->].
  cbn. auto.
Qed.

Lemma returned_signal_was_pending_witness :
  pending_signal armed = Some long /\
  pending_signal (clear_pending armed) = None /\
  last_signal_candle (clear_pending armed) = None.
Proof.
  apply (returned_signal_was_pending armed (clear_pending armed)
           [row_at 0 110; row_at 300000 100] long).
  reflexivity.
Defined.

(** C2: a call that arms a pending signal returns no signal; and in any
    series of calls on a strategy that starts without a pending signal,
    a call that returns a signal comes strictly after an earlier call of
    the series that armed that signal and itself returned none. *)
Theorem arming_call_returns_no_signal :
  (forall (self : BandStrategy) (df : DataFrame),
      arms self df -> snd (get_signal self df) = None) /\
  (forall (self : BandStrategy) (dfs : list DataFrame) (k : nat)
          (df : DataFrame) (sig : signal),
      pending_signal self = None ->
      nth_error dfs k = Some df ->
      snd (get_signal (after_calls self (firstn k dfs)) df) = Some sig ->
      exists (j : nat) (dfj : DataFrame),
        (j < k)%nat /\ nth_error dfs j = Some dfj /\
        arms (after_calls self (firstn j dfs)) dfj /\
        pending_signal (fst (get_signal (after_calls self (firstn j dfs)) dfj))
          = Some sig /\
        snd (get_signal (after_calls self (firstn j dfs)) dfj) = None).
Proof.
  assert (Harm : forall self df, arms self df -> snd (get_signal self df) = None).
  { intros self df Ha. apply arms_iff in Ha.
    destruct Ha as (prev & s & _ & _ & _ & _ & Heq). now rewrite Heq. }
  split; [exact Harm|].
  intros self dfs k df sig Hinit Hnth Hret.
  destruct (get_signal (after_calls self (firstn k dfs)) df) as [self' r] eqn:Ecall.
  cbn in Hret. subst r.
  destruct (signal_comes_from_pending _ _ _ _ Ecall) as [Hpend _].
  destruct (pending_has_armed_call dfs self sig Hinit k Hpend)
    as (j & dfj & Hj & Hnj & Ha & Hp).
  exists j, dfj. repeat split; auto.
  - apply Ha.
  - apply Ha.
Qed.

Lemma arming_call_returns_no_signal_witness :
  exists (j : nat) (dfj : DataFrame),
    (j < 1)%nat /\
    nth_error [[row_at 0 110; row_at 300000 100];
               [row_at 0 110; row_at 300000 100]] j = Some dfj /\
    arms (after_calls default
            (firstn j [[row_at 0 110; row_at 300000 100];
                       [row_at 0 110; row_at 300000 100]])) dfj /\
    pending_signal
      (fst (get_signal
              (after_calls default
                 (firstn j [[row_at 0 110; row_at 300000 100];
                            [row_at 0 110; row_at 300000 100]])) dfj))
      = Some long /\
    snd (get_signal
           (after_calls default
              (firstn j [[row_at 0 110; row_at 300000 100];
                         [row_at 0 110; row_at 300000 100]])) dfj) = None.
Proof.
  apply (proj2 arming_call_returns_no_signal default
           [[row_at 0 110; row_at 300000 100]; [row_at 0 110; row_at 300000 100]]
           1%nat [row_at 0 110; row_at 300000 100] long).
  - reflexivity.
  - reflexivity.
  - reflexivity.
Defined.

End DetectorClaims.

(** ** Take-profit and stop-loss levels *)

Section LevelFacts.

Import Py Strategy.

Lemma calculate_entry_levels_eq (self : BandStrategy) (p : Q) (b : Bands)
    (is_long : bool) :
  calculate_entry_levels self p b is_long
  = (round (fst (price_levels self p b is_long)) 4,
     round (snd (price_levels self p b is_long)) 4).
Proof.
  unfold calculate_entry_levels. now destruct (price_levels self p b is_long).
Qed.

(** On a band of width zero both unrounded levels are the entry price. *)
Lemma price_levels_flat_band (self : BandStrategy) (p : Q) (b : Bands)
    (is_long : bool) :
  upper b == lower b ->
  fst (price_levels self p b is_long) == p /\
  snd (price_levels self p b is_long) == p.
Proof.
  intro Hflat.
  assert (Hw : Qabs (upper b - lower b) == 0).
  { assert (E : upper b - lower b == 0) by lra. rewrite E. reflexivity. }
  unfold price_levels. destruct is_long; cbn [fst snd]; rewrite Hw; split; ring.
Qed.


End LevelFacts.

Section LevelClaims.

Import Py Strategy Samples.

(** C4, as stated, fails: with both multipliers 1, entry 100 and the band
    [95, 105], the long take profit and the short stop loss are both 110,
    so the left side is 10 and the right side is -10. *)
Lemma long_tp_and_short_sl_on_same_side :
  ~ (forall (self : BandStrategy) (entry : Q) (bands : Bands),
        tp_multiplier self == sl_multiplier self ->
        fst (calculate_entry_levels self entry bands true) - entry
        == entry - snd (calculate_entry_levels self entry bands false)).
Proof.
  intro H.
  specialize (H unit_multipliers 100 (mkBands 105 95) (Qeq_refl 1)).
  vm_compute in H. discriminate H.
Qed.

(** C4, amended: for every entry price and band, when the two multipliers
    are equal the long take profit and the short stop loss are the same
    price, on the same side of the entry (tp_long - entry == sl_short -
    entry); likewise the short take profit and the long stop loss. *)
Theorem long_tp_equals_short_sl
    (self : BandStrategy) (entry : Q) (bands : Bands) :
  tp_multiplier self == sl_multiplier self ->
  fst (calculate_entry_levels self entry bands true) - entry
  == snd (calculate_entry_levels self entry bands false) - entry /\
  fst (calculate_entry_levels self entry bands true)
  == snd (calculate_entry_levels self entry bands false) /\
  fst (calculate_entry_levels self entry bands false)
  == snd (calculate_entry_levels self entry bands true).
Proof.
  intro Hmult.
  rewrite !calculate_entry_levels_eq. unfold price_levels. cbn [fst snd].
  rewrite Hmult. repeat split; reflexivity.
Qed.

Lemma long_tp_equals_short_sl_witness :
  fst (calculate_entry_levels unit_multipliers 100 (mkBands 105 95) true) - 100
  == snd (calculate_entry_levels unit_multipliers 100 (mkBands 105 95) false) - 100 /\
  fst (calculate_entry_levels unit_multipliers 100 (mkBands 105 95) true)
  == snd (calculate_entry_levels unit_multipliers 100 (mkBands 105 95) false) /\
  fst (calculate_entry_levels unit_multipliers 100 (mkBands 105 95) false)
  == snd (calculate_entry_levels unit_multipliers 100 (mkBands 105 95) true).
Proof.
  apply (long_tp_equals_short_sl unit_multipliers 100 (mkBands 105 95)).
  reflexivity.
Defined.

(** C5, as stated, fails: on a band of width zero and an entry price of
    0.52347 the long take profit is 0.5235, not the entry price. *)
Lemma flat_band_levels_are_rounded :
  ~ (forall (self : BandStrategy) (entry : Q) (bands : Bands) (is_long : bool),
        upper bands == lower bands ->
        fst (calculate_entry_levels self entry bands is_long) == entry /\
        snd (calculate_entry_levels self entry bands is_long) == entry).
Proof.
  intro H.
  destruct (H default (52347 # 100000) (mkBands 1 1) true (Qeq_refl 1)) as [Htp _].
  vm_compute in Htp. discriminate Htp.
Qed.

(** C5, amended: for every entry price and every band whose upper and
    lower lines are equal, in both directions the take profit and the stop
    loss are equal to each other and to the entry price rounded to 4
    fractional digits; they equal the entry price itself whenever it has
    at most 4 fractional digits. *)
Theorem flat_band_levels
    (self : BandStrategy) (entry : Q) (bands : Bands) (is_long : bool) :
  upper bands == lower bands ->
  fst (calculate_entry_levels self entry bands is_long) == round entry 4 /\
  snd (calculate_entry_levels self entry bands is_long) == round entry 4 /\
  (forall k : Z, entry == inject_Z k / pow10 4 ->
     fst (calculate_entry_levels self entry bands is_long) == entry /\
     snd (calculate_entry_levels self entry bands is_long) == entry).
Proof.
  intro Hflat.
  destruct (price_levels_flat_band self entry bands is_long Hflat) as [Htp Hsl].
  rewrite calculate_entry_levels_eq. cbn [fst snd].
  assert (Rtp : round (fst (price_levels self entry bands is_long)) 4 == round entry 4)
    by (rewrite Htp; reflexivity).
  assert (Rsl : round (snd (price_levels self entry bands is_long)) 4 == round entry 4)
    by (rewrite Hsl; reflexivity).
  split; [exact Rtp|]. split; [exact Rsl|].
  intros k Hk.
  assert (E : round entry 4 == entry).
  { rewrite (round_comp _ _ Hk 4%nat 4%nat eq_refl), round_multiple.
    symmetry. exact Hk. }
  split; [rewrite Rtp|rewrite Rsl]; exact E.
Qed.

Lemma flat_band_levels_witness :
  fst (calculate_entry_levels default (52347 # 100000) (mkBands 1 1) true)
  == round (52347 # 100000) 4 /\
  snd (calculate_entry_levels default (52347 # 100000) (mkBands 1 1) true)
  == round (52347 # 100000) 4 /\
  (forall k : Z, 52347 # 100000 == inject_Z k / pow10 4 ->
     fst (calculate_entry_levels default (52347 # 100000) (mkBands 1 1) true)
     == 52347 # 100000 /\
     snd (calculate_entry_levels default (52347 # 100000) (mkBands 1 1) true)
     == 52347 # 100000).
Proof.
  apply (flat_band_levels default (52347 # 100000) (mkBands 1 1) true).
  reflexivity.
Defined.



End LevelClaims.

(** ** Position size *)

Section PositionFacts.

Import Py PositionCalculator.

(** The table holds two distinct amounts. *)
Lemma get_minimum_amount_cases (symbol : string) :
  get_minimum_amount symbol = 1 # 10 \/ get_minimum_amount symbol = 1.
Proof.
  unfold get_minimum_amount.
  change (dict_get MIN_AMOUNTS "DEFAULT") with (Some 1).
  unfold MIN_AMOUNTS. cbn [dict_get].
  destruct (String.eqb symbol "BTC-USDT"); [now left|].
  destruct (String.eqb symbol "ETH-USDT"); [now right|].
  destruct (String.eqb symbol "DEFAULT"); now right.
Qed.

(** Every minimum amount has at most 4 decimals, so rounding keeps it. *)
Lemma round_minimum_amount (symbol : string) :
  round (get_minimum_amount symbol) 4 == get_minimum_amount symbol /\
  round (get_minimum_amount symbol) 8 == get_minimum_amount symbol.
Proof.
  destruct (get_minimum_amount_cases symbol) as [-> | ->]; split; reflexivity.
Qed.

End PositionFacts.

Section PositionClaims.

Import Py PositionCalculator.

(** C7: for positive notional, leverage and price and every symbol, the
    call returns a size that is at least the symbol's minimum amount; when
    the raw size (usd_size * leverage) / price, as the float product and
    quotient give it, is below the minimum the result is the minimum
    itself, and otherwise it is the raw size rounded (to 4 fractional
    digits, so within half a ten-thousandth of it).  This holds whatever
    the float product and quotient round to. *)
Theorem position_size_respects_minimum
    (fmul fdiv : Q -> Q -> Q)
    (price usd_size : Q) (leverage : Z) (symbol : string) :
  0 < usd_size -> (0 < leverage)%Z -> 0 < price ->
  let raw := fdiv (fmul usd_size (inject_Z leverage)) price in
  let minimum := get_minimum_amount symbol in
  exists size : Q,
    calculate_position_size_with fmul fdiv price usd_size leverage symbol
    = inr size /\
    minimum <= size /\
    (raw < minimum -> size == minimum) /\
    (minimum <= raw -> size == round raw 4 /\ Qabs (size - raw) <= 1 # 20000).
Proof.
  intros Husd Hlev Hprice raw minimum.
  unfold calculate_position_size_with.
  destruct (Qeq_bool price 0) eqn:Ezero.
  { apply Qeq_bool_iff in Ezero. lra. }
  fold raw. fold minimum.
  destruct (round_minimum_amount symbol) as [Hmin4 Hmin8].
  fold minimum in Hmin4, Hmin8.
  pose proof (round_round raw 4 4) as Hrr. change (4 + 4)%nat with 8%nat in Hrr.
  destruct (ltb (round raw 4) minimum) eqn:Elt.
  - (* clamped *)
    apply ltb_lt in Elt.
    exists (round minimum 8). split; [reflexivity|].
    split; [rewrite Hmin8; apply Qle_refl|].
    split; [intros _; exact Hmin8|].
    intro Hge. apply (round_mono _ _ 4) in Hge. rewrite Hmin4 in Hge. lra.
  - (* kept *)
    apply ltb_ge in Elt.
    exists (round (round raw 4) 8). split; [reflexivity|].
    split; [rewrite Hrr; exact Elt|].
    split.
    + intro Hlow. apply Qlt_le_weak in Hlow.
      apply (round_mono _ _ 4) in Hlow. rewrite Hmin4 in Hlow.
      rewrite Hrr. apply Qle_antisym; assumption.
    + intros _. split; [exact Hrr|].
      rewrite Hrr. apply (round_near raw 4).
Qed.

Lemma position_size_respects_minimum_witness :
  (exists size : Q,
      calculate_position_size_with Qmult Qdiv 1000 10 1 "ETH-USDT" = inr size /\
      size == 1) /\
  (exists size : Q,
      calculate_position_size_with Qmult Qdiv 50 100 3 "BTC-USDT" = inr size /\
      size == 6) /\
  (exists size : Q,
      calculate_position_size_with
        Qmult (fun _ _ => 3604681141747345 # 36028797018963968)
        20000 2001 1 "BTC-USDT" = inr size /\
      size == 1001 # 10000).
Proof.
  split; [|split].
  - destruct (position_size_respects_minimum Qmult Qdiv 1000 10 1 "ETH-USDT")
      as (size & Hcall & _ & Hlow & _).
    + reflexivity.
    + reflexivity.
    + reflexivity.
    + exists size. split; [exact Hcall|]. apply Hlow. reflexivity.
  - destruct (position_size_respects_minimum Qmult Qdiv 50 100 3 "BTC-USDT")
      as (size & Hcall & _ & _ & Hhigh).
    + reflexivity.
    + reflexivity.
    + reflexivity.
    + exists size. split; [exact Hcall|].
      destruct Hhigh as [Hsize _].
      * vm_compute. discriminate.
      * rewrite Hsize. reflexivity.
  - (* the quotient is the double nearest to 2001 / 20000 *)
    destruct (position_size_respects_minimum
                Qmult (fun _ _ => 3604681141747345 # 36028797018963968)
                20000 2001 1 "BTC-USDT")
      as (size & Hcall & _ & _ & Hhigh).
    + reflexivity.
    + reflexivity.
    + reflexivity.
    + exists size. split; [exact Hcall|].
      destruct Hhigh as [Hsize _].
      * vm_compute. discriminate.
      * rewrite Hsize. reflexivity.
Defined.

End PositionClaims.

(** ** Indicators *)

Section IndicatorFacts.

Import Py Strategy.

Lemma ewm_from_length (a prev : Q) (xs : list Q) :
  List.length (ewm_from a prev xs) = List.length xs.
Proof.
  revert prev. induction xs as [|x xs IH]; intro prev; cbn; [reflexivity|].
  now rewrite IH.
Qed.

Lemma ewm_mean_length (span : Z) (xs : list Q) :
  List.length (ewm_mean span xs) = List.length xs.
Proof.
  destruct xs as [|x xs]; cbn; [reflexivity|]. now rewrite ewm_from_length.
Qed.

Lemma rolling_from_length (window : nat) (seen xs : list Q) :
  List.length (rolling_from window seen xs) = List.length xs.
Proof.
  revert seen. induction xs as [|x xs IH]; intro seen; cbn; [reflexivity|].
  now rewrite IH.
Qed.

(** Which candles survive [dropna] depends on the [SMA21] column alone. *)
Lemma dropna_candles (df : list Candle) :
  forall (E : list Q) (S : list (option Q)),
    List.length E = List.length df ->
    List.length S = List.length df ->
    map candle
      (dropna (map (fun '(c, (e, s)) => mkRow c e s (row_max e s) (row_min e s))
                   (combine df (combine E S))))
    = map fst (filter (fun cs => has_value (snd cs)) (combine df S)).
Proof.
  induction df as [|c df IH]; intros E S HE HS; [reflexivity|].
  destruct E as [|e E]; [discriminate|].
  destruct S as [|s S]; [discriminate|].
  cbn in HE, HS. injection HE as HE. injection HS as HS.
  specialize (IH E S HE HS). unfold dropna in *.
  cbn. destruct s; cbn; now rewrite IH.
Qed.

(** The rolling mean is missing on exactly the first [window - 1] rows
    that follow the values already seen. *)
Lemma rolling_warm_up (window : nat) (df : list Candle) :
  forall seen : list Q,
    map fst (filter (fun cs => has_value (snd cs))
                    (combine df (rolling_from window seen (map close df))))
    = skipn (window - 1 - List.length seen) df.
Proof.
  induction df as [|c df IH]; intro seen.
  - cbn. now rewrite skipn_nil.
  - cbn [map rolling_from combine filter List.length].
    specialize (IH (close c :: seen)). cbn [List.length] in IH.
    destruct (S (List.length seen) <? window)%nat eqn:E.
    + apply Nat.ltb_lt in E. cbn [snd has_value]. rewrite IH.
      replace (window - 1 - List.length seen)%nat
        with (S (window - 1 - S (List.length seen))) by lia.
      reflexivity.
    + apply Nat.ltb_ge in E. cbn [snd has_value map fst]. rewrite IH.
      replace (window - 1 - S (List.length seen))%nat with 0%nat by lia.
      replace (window - 1 - List.length seen)%nat with 0%nat by lia.
      reflexivity.
Qed.

(** Every row gets its two bands from its own two averages. *)
Lemma add_columns_bands (df : list Candle) :
  Forall (fun r => upper_band r = row_max (EMA34 r) (SMA21 r) /\
                   lower_band r = row_min (EMA34 r) (SMA21 r))
         (add_columns df).
Proof.
  unfold add_columns. apply Forall_forall. intros r Hin.
  apply in_map_iff in Hin. destruct Hin as ([c [e s]] & <- & _).
  cbn. auto.
Qed.

Lemma candles_of_indicators (df : list Candle) :
  map candle (calculate_indicators df) = skipn 20 df.
Proof.
  destruct df as [|c df]; [reflexivity|].
  unfold calculate_indicators, add_columns.
  rewrite dropna_candles.
  - unfold rolling_mean. apply (rolling_warm_up 21 (c :: df) []).
  - rewrite ewm_mean_length. apply length_map.
  - unfold rolling_mean. rewrite rolling_from_length. apply length_map.
Qed.

End IndicatorFacts.


(** ** Validation and construction *)

Section ValidationClaims.

Import Py Utils Strategy.

(** C9, as stated, fails: constructing the strategy with size -1, leverage
    0 and both multipliers 0 succeeds; [__init__] checks nothing. *)
Lemma construction_accepts_any_configuration :
  ~ (forall (size : Q) (lev : Z) (tp sl : Q),
        size <= 0 \/ (lev < 1)%Z \/ tp <= 0 \/ sl <= 0 ->
        exists e : exn, init size lev tp sl = inl e).
Proof.
  intro H.
  destruct (H (-1) 0%Z 0 0) as [e He].
  - left. discriminate.
  - discriminate He.
Qed.

(** C9, amended: construction of the strategy succeeds for every
    configuration and stores the four values as given, with no pending
    signal; the checks live in the separate function [validate_input],
    which raises ValueError for a non-positive position size, a leverage
    below 1 or a non-positive TP or SL value, and returns normally for a
    positive size, leverage at least 1 and positive TP and SL values when
    the symbol ends in -USDT. *)
Theorem validation_is_separate_from_construction :
  (forall (size : Q) (lev : Z) (tp sl : Q),
      exists s : BandStrategy,
        init size lev tp sl = inr s /\
        position_size_usd s = size /\ leverage s = lev /\
        tp_multiplier s = tp /\ sl_multiplier s = sl /\
        pending_signal s = None /\ last_signal_candle s = None) /\
  (forall (symbol : string) (size : Q) (lev : Z) (tp sl : Q),
      size <= 0 \/ (lev < 1)%Z \/ tp <= 0 \/ sl <= 0 ->
      exists msg : string,
        validate_input symbol size lev tp sl = inl (ValueError msg)) /\
  (forall (symbol : string) (size : Q) (lev : Z) (tp sl : Q),
      0 < size -> (1 <= lev)%Z -> 0 < tp -> 0 < sl ->
      endswith symbol "-USDT" = true ->
      validate_input symbol size lev tp sl = inr tt).
Proof.
  split; [|split].
  - intros size lev tp sl. eexists. split; [reflexivity|]. cbn. auto 10.
  - intros symbol size lev tp sl Hbad. unfold validate_input, leb.
    destruct (Qle_bool size 0) eqn:Es; [eauto|].
    destruct (lev <? 1)%Z eqn:El; [eauto|].
    destruct (Qle_bool tp 0) eqn:Et; [cbn; eauto|].
    destruct (Qle_bool sl 0) eqn:Esl; [cbn; eauto|].
    exfalso.
    apply Z.ltb_ge in El.
    destruct Hbad as [Hb|[Hb|[Hb|Hb]]];
      try (apply Qle_bool_iff in Hb; congruence); lia.
  - intros symbol size lev tp sl Hs Hl Ht Hsl Hsym.
    unfold validate_input, leb.
    destruct (Qle_bool size 0) eqn:Es; [apply Qle_bool_iff in Es; lra|].
    destruct (lev <? 1)%Z eqn:El; [apply Z.ltb_lt in El; lia|].
    destruct (Qle_bool tp 0) eqn:Et; [apply Qle_bool_iff in Et; lra|].
    destruct (Qle_bool sl 0) eqn:Esl; [apply Qle_bool_iff in Esl; lra|].
    cbn [orb]. rewrite Hsym. reflexivity.
Qed.

Lemma validation_is_separate_from_construction_witness :
  (exists msg : string,
      validate_input "BTC-USDT" (-1) 3 2 1 = inl (ValueError msg)) /\
  validate_input "BTC-USDT" 100 3 2 1 = inr tt.
Proof.
  split.
  - apply (proj1 (proj2 validation_is_separate_from_construction)).
    left. discriminate.
  - apply (proj2 (proj2 validation_is_separate_from_construction));
      [reflexivity | lia | reflexivity | reflexivity | reflexivity].
Defined.

End ValidationClaims.

(** ** The detector over a series of polls *)

Section PollFacts.

Import Py Strategy Polls Samples.

Lemma after_calls_cons (self : BandStrategy) (df : DataFrame) (dfs : list DataFrame) :
  after_calls self (df :: dfs) = after_calls (fst (get_signal self df)) dfs.
Proof. reflexivity. Qed.

Lemma get_signal_keeps_paired (self : BandStrategy) (df : DataFrame) :
  paired self -> paired (fst (get_signal self df)).
Proof.
  intro Hp. pose proof (get_signal_path self df) as Hpath.
  inversion Hpath; cbn [fst]; try exact Hp.
  - left. cbn. auto.
  - left. cbn. auto.
  - right. cbn. eauto.
Qed.

(** X1: every strategy the constructor returns keeps, through any series
    of [get_signal] calls, its pending signal and its arming time set
    together or not at all. *)
Theorem pending_and_arming_time_stay_paired
    (size : Q) (lev : Z) (tp sl : Q) (self : BandStrategy) (dfs : list DataFrame) :
  init size lev tp sl = inr self ->
  paired (after_calls self dfs).
Proof.
  intro Hinit. injection Hinit as <-.
  set (s0 := {| position_size_usd := size |}).
  assert (H0 : paired s0) by (left; split; reflexivity).
  clearbody s0. revert s0 H0.
  induction dfs as [|df dfs IH]; intros s0 H0; [exact H0|].
  rewrite after_calls_cons. apply IH. now apply get_signal_keeps_paired.
Qed.

Lemma pending_and_arming_time_stay_paired_witness :
  paired (after_calls default
            [[row_at 0 110; row_at 300000 100]; [row_at 300000 100; row_at 600000 100]]).
Proof.
  apply (pending_and_arming_time_stay_paired 100 3 2 1 default).
  reflexivity.
Defined.

Lemma get_signal_keeps_configuration (self : BandStrategy) (df : DataFrame) :
  let self' := fst (get_signal self df) in
  position_size_usd self' = position_size_usd self /\
  leverage self' = leverage self /\
  tp_multiplier self' = tp_multiplier self /\
  sl_multiplier self' = sl_multiplier self /\
  active_position self' = active_position self.
Proof.
  pose proof (get_signal_path self df) as Hpath.
  inversion Hpath; cbn; auto 10.
Qed.

(** X2: no series of [get_signal] calls changes the configuration of the
    strategy: position size, leverage, both multipliers and the active
    position are what they were before the first call. *)
Theorem polls_keep_configuration (self : BandStrategy) (dfs : list DataFrame) :
  position_size_usd (after_calls self dfs) = position_size_usd self /\
  leverage (after_calls self dfs) = leverage self /\
  tp_multiplier (after_calls self dfs) = tp_multiplier self /\
  sl_multiplier (after_calls self dfs) = sl_multiplier self /\
  active_position (after_calls self dfs) = active_position self.
Proof.
  revert self. induction dfs as [|df dfs IH]; intro self; [cbn; auto 10|].
  rewrite after_calls_cons.
  destruct (IH (fst (get_signal self df))) as (H1 & H2 & H3 & H4 & H5).
  destruct (get_signal_keeps_configuration self df) as (G1 & G2 & G3 & G4 & G5).
  repeat split; congruence.
Qed.

(** X3: while a pending signal is held, a call never looks for a new
    breakout: whatever the frame, the strategy is left as it was or with
    the pending signal cleared, and the only signal that can be returned is
    the pending one. *)
Theorem pending_signal_blocks_detection
    (self : BandStrategy) (sig : signal) (T : Z) (df : DataFrame) :
  pending_signal self = Some sig ->
  last_signal_candle self = Some T ->
  (get_signal self df = (self, None) \/
   get_signal self df = (clear_pending self, None) \/
   get_signal self df = (clear_pending self, Some sig)).
Proof.
  intros Hps Hlc. pose proof (get_signal_path self df) as Hpath.
  inversion Hpath as [Hl Heq | p a c Hl Hps' Hlc' Hc Ht Heq | p a c Hl Hps' Hlc' Hc Ht Heq
                      | p a c Hl Hps' Hlc' Hc Ht Heq | prev s Hl Hno Hprev Hb Heq
                      | prev Hl Hno Hprev Hb Heq]; auto.
  - right. right. congruence.
  - destruct Hno; congruence.
Qed.

Lemma pending_signal_blocks_detection_witness :
  get_signal armed [row_at 0 110; row_at 100000 120] = (armed, None) \/
  get_signal armed [row_at 0 110; row_at 100000 120] = (clear_pending armed, None) \/
  get_signal armed [row_at 0 110; row_at 100000 120] = (clear_pending armed, Some long).
Proof.
  apply (pending_signal_blocks_detection armed long 0%Z); reflexivity.
Defined.

(** X4: polling the same frame twice arms and then fires.  On a strategy
    without pending signal, a frame whose previous candle closed outside
    its band and whose last candle is exactly five minutes later arms on
    the first call and, polled again, returns that signal and leaves the
    strategy without pending signal. *)
Theorem same_frame_arms_then_fires
    (self : BandStrategy) (df : DataFrame) (current prev : Row) (sig : signal) :
  pending_signal self = None ->
  (2 <= List.length df)%nat ->
  iloc df (-1) = Some current ->
  iloc df (-2) = Some prev ->
  breakout prev = Some sig ->
  name current = (name prev + 300000)%Z ->
  get_signal self df = (set_pending self sig (name prev), None) /\
  get_signal (set_pending self sig (name prev)) df
  = (clear_pending self, Some sig).
Proof.
  intros Hno Hlen Hcur Hprev Hb Htime. split.
  - pose proof (get_signal_path self df) as Hpath.
    inversion Hpath as [Hl Heq | p a c Hl Hps' Hlc' Hc Ht Heq | p a c Hl Hps' Hlc' Hc Ht Heq
                        | p a c Hl Hps' Hlc' Hc Ht Heq | prev' s Hl Hno' Hprev' Hb' Heq
                        | prev' Hl Hno' Hprev' Hb' Heq]; try lia; try congruence.
  - rewrite (get_signal_pending (set_pending self sig (name prev)) sig (name prev)
               df current eq_refl eq_refl Hlen Hcur).
    rewrite Htime, Z.eqb_refl. reflexivity.
Qed.

Lemma same_frame_arms_then_fires_witness :
  get_signal default [row_at 0 110; row_at 300000 100]
  = (set_pending default long 0, None) /\
  get_signal (set_pending default long 0) [row_at 0 110; row_at 300000 100]
  = (clear_pending default, Some long).
Proof.
  apply (same_frame_arms_then_fires default [row_at 0 110; row_at 300000 100]
           (row_at 300000 100) (row_at 0 110) long); reflexivity.
Defined.

(** What a strategy can hold between two polls of an advancing series: no
    pending signal, or one that was due no later than the last candle
    already polled. *)
Lemma advancing_step
    (self : BandStrategy) (previous : option Z) (df : DataFrame) (current prev : Row) :
  (pending_signal self = None \/
   exists T t, last_signal_candle self = Some T /\ previous = Some t /\
               (T + 300000 <= t)%Z) ->
  (2 <= List.length df)%nat ->
  iloc df (-1) = Some current ->
  iloc df (-2) = Some prev ->
  (name prev + 300000 <= name current)%Z ->
  match previous with Some t => (t < name current)%Z | None => True end ->
  snd (get_signal self df) = None /\
  (pending_signal (fst (get_signal self df)) = None \/
   exists T t, last_signal_candle (fst (get_signal self df)) = Some T /\
               Some (name current) = Some t /\ (T + 300000 <= t)%Z).
Proof.
  intros Hinv Hlen Hcur Hprev Hgap Hnew.
  pose proof (get_signal_path self df) as Hpath.
  inversion Hpath as [Hl Heq | p a c Hl Hps' Hlc' Hc Ht Heq | p a c Hl Hps' Hlc' Hc Ht Heq
                      | p a c Hl Hps' Hlc' Hc Ht Heq | prev' s Hl Hno' Hprev' Hb' Heq
                      | prev' Hl Hno' Hprev' Hb' Heq]; cbn [fst snd].
  - lia.
  - exfalso. destruct Hinv as [Hnone|(T & t & HT & Ht' & Hle)]; [congruence|].
    subst previous. assert (a = T) by congruence. assert (c = current) by congruence.
    subst. lia.
  - split; [reflexivity|]. left. reflexivity.
  - exfalso. destruct Hinv as [Hnone|(T & t & HT & Ht' & Hle)]; [congruence|].
    subst previous. assert (a = T) by congruence. assert (c = current) by congruence.
    subst. lia.
  - split; [reflexivity|]. right.
    assert (prev' = prev) by congruence. subst prev'.
    exists (name prev), (name current). cbn. auto.
  - split; [reflexivity|].
    destruct Hinv as [Hnone|(T & t & HT & Ht' & Hle)]; [now left|].
    destruct Hno' as [Hno'|Hno']; [now left|congruence].
Qed.

Lemma advancing_never_fires
    (dfs : list DataFrame) :
  forall (self : BandStrategy) (previous : option Z),
    (pending_signal self = None \/
     exists T t, last_signal_candle self = Some T /\ previous = Some t /\
                 (T + 300000 <= t)%Z) ->
    advancing previous dfs = true ->
    forall (k : nat) (df : DataFrame),
      nth_error dfs k = Some df ->
      snd (get_signal (after_calls self (firstn k dfs)) df) = None.
Proof.
  induction dfs as [|df0 dfs IH]; intros self previous Hinv Hadv k df Hnth.
  - destruct k; discriminate.
  - cbn [advancing] in Hadv.
    destruct (iloc df0 (-1)) as [current|] eqn:Hcur; [|discriminate].
    destruct (iloc df0 (-2)) as [prev|] eqn:Hprev; [|discriminate].
    apply andb_prop in Hadv. destruct Hadv as [Hadv Hrest].
    apply andb_prop in Hadv. destruct Hadv as [Hadv Hnew].
    apply andb_prop in Hadv. destruct Hadv as [Hlen Hgap].
    apply Nat.leb_le in Hlen. apply Z.leb_le in Hgap.
    assert (Hnew' : match previous with
                    | Some t => (t < name current)%Z
                    | None => True
                    end).
    { destruct previous; [now apply Z.ltb_lt|exact I]. }
    destruct (advancing_step self previous df0 current prev
                Hinv Hlen Hcur Hprev Hgap Hnew') as [Hnone Hinv'].
    destruct k as [|k].
    + cbn in Hnth. injection Hnth as <-. exact Hnone.
    + cbn [nth_error] in Hnth. cbn [firstn]. rewrite after_calls_cons.
      apply (IH _ (Some (name current)) Hinv' Hrest k df Hnth).
Qed.

(** X5: polled once per new candle, the detector never returns a signal.
    Starting without pending signal, on any series of frames of at least
    two rows in which the last candle is at least five minutes after the
    one before it and later than the last candle of the previous frame,
    every call returns no signal: what one call arms is already past due
    at the next. *)
Theorem one_poll_per_candle_never_fires
    (self : BandStrategy) (dfs : list DataFrame) (k : nat) (df : DataFrame) :
  pending_signal self = None ->
  advancing None dfs = true ->
  nth_error dfs k = Some df ->
  snd (get_signal (after_calls self (firstn k dfs)) df) = None.
Proof.
  intros Hno Hadv Hnth.
  apply (advancing_never_fires dfs self None (or_introl Hno) Hadv k df Hnth).
Qed.

Lemma one_poll_per_candle_never_fires_witness :
  snd (get_signal
         (after_calls default
            (firstn 1 [[row_at 0 110; row_at 300000 100];
                       [row_at 300000 100; row_at 600000 100]]))
         [row_at 300000 100; row_at 600000 100]) = None.
Proof.
  apply (one_poll_per_candle_never_fires default
           [[row_at 0 110; row_at 300000 100];
            [row_at 300000 100; row_at 600000 100]] 1%nat); reflexivity.
Defined.

End PollFacts.

(** ** The values of the indicators *)

Section IndicatorValues.

Import Py Strategy Polls Samples.

Lemma convex_between (a lo hi p x : Q) :
  0 <= a -> a <= 1 -> lo <= p <= hi -> lo <= x <= hi ->
  lo <= (1 - a) * p + a * x <= hi.
Proof.
  intros Ha0 Ha1 [Hp1 Hp2] [Hx1 Hx2]. split.
  - assert (H1 : 0 <= (1 - a) * (p - lo)) by (apply Qmult_le_0_compat; lra).
    assert (H2 : 0 <= a * (x - lo)) by (apply Qmult_le_0_compat; lra).
    lra.
  - assert (H1 : 0 <= (1 - a) * (hi - p)) by (apply Qmult_le_0_compat; lra).
    assert (H2 : 0 <= a * (hi - x)) by (apply Qmult_le_0_compat; lra).
    lra.
Qed.

Lemma alpha_34_range : 0 <= alpha 34 /\ alpha 34 <= 1.
Proof. split; vm_compute; discriminate. Qed.

Lemma ewm_from_between (a lo hi : Q) (xs : list Q) :
  0 <= a -> a <= 1 ->
  Forall (fun x => lo <= x <= hi) xs ->
  forall prev, lo <= prev <= hi ->
  Forall (fun y => lo <= y <= hi) (ewm_from a prev xs).
Proof.
  intros Ha0 Ha1 Hxs. induction Hxs as [|x xs Hx Hxs IH]; intros prev Hprev; cbn.
  - constructor.
  - pose proof (convex_between a lo hi prev x Ha0 Ha1 Hprev Hx) as Hy.
    constructor; [exact Hy|]. apply IH. exact Hy.
Qed.

Lemma ewm_mean_between (lo hi : Q) (xs : list Q) :
  Forall (fun x => lo <= x <= hi) xs ->
  Forall (fun y => lo <= y <= hi) (ewm_mean 34 xs).
Proof.
  intro Hxs. destruct Hxs as [|x xs Hx Hxs]; cbn; constructor; [exact Hx|].
  destruct alpha_34_range. now apply ewm_from_between.
Qed.

Lemma sum_between (lo hi : Q) (xs : list Q) :
  Forall (fun x => lo <= x <= hi) xs ->
  lo * inject_Z (Z.of_nat (List.length xs)) <= fold_right Qplus 0 xs /\
  fold_right Qplus 0 xs <= hi * inject_Z (Z.of_nat (List.length xs)).
Proof.
  induction 1 as [|x xs [Hx1 Hx2] Hxs [IH1 IH2]].
  - cbn [List.length fold_right Z.of_nat]. change (inject_Z 0) with 0.
    rewrite !Qmult_0_r. split; apply Qle_refl.
  - cbn [List.length fold_right]. rewrite Nat2Z.inj_succ.
    unfold Z.succ. rewrite inject_Z_plus. change (inject_Z 1) with 1.
    generalize dependent (inject_Z (Z.of_nat (List.length xs))). intros n IH1 IH2.
    split.
    + setoid_replace (lo * (n + 1)) with (lo + lo * n) by ring.
      apply Qplus_le_compat; assumption.
    + setoid_replace (hi * (n + 1)) with (hi + hi * n) by ring.
      apply Qplus_le_compat; assumption.
Qed.

Lemma mean_between (lo hi : Q) (xs : list Q) :
  xs <> [] ->
  Forall (fun x => lo <= x <= hi) xs ->
  lo <= mean xs <= hi.
Proof.
  intros Hne Hxs. destruct (sum_between lo hi xs Hxs) as [H1 H2].
  unfold mean.
  assert (Hn : 0 < inject_Z (Z.of_nat (List.length xs))).
  { change 0 with (inject_Z 0). rewrite <- Zlt_Qlt.
    destruct xs; [congruence|cbn [List.length]; lia]. }
  split.
  - apply Qle_shift_div_l; assumption.
  - apply Qle_shift_div_r; assumption.
Qed.

Lemma nth_error_combine {A B : Type} (l : list A) (l' : list B) (i : nat) :
  nth_error (combine l l') i
  = match nth_error l i, nth_error l' i with
    | Some a, Some b => Some (a, b)
    | _, _ => None
    end.
Proof.
  revert l' i. induction l as [|a l IH]; intros [|b l'] [|i]; cbn; try reflexivity.
  - now destruct (nth_error l i).
  - apply IH.
Qed.

(** The row at a position is made of the candle and the two averages at
    that position. *)
Lemma add_columns_nth (df : list Candle) (i : nat) (r : Row) :
  nth_error (add_columns df) i = Some r ->
  exists (c : Candle) (e : Q) (s : option Q),
    nth_error df i = Some c /\
    nth_error (ewm_mean 34 (map close df)) i = Some e /\
    nth_error (rolling_mean 21 (map close df)) i = Some s /\
    r = mkRow c e s (row_max e s) (row_min e s).
Proof.
  unfold add_columns. rewrite nth_error_map, !nth_error_combine.
  destruct (nth_error df i) as [c|]; [|discriminate].
  destruct (nth_error (ewm_mean 34 (map close df)) i) as [e|]; [|discriminate].
  destruct (nth_error (rolling_mean 21 (map close df)) i) as [s0|]; [|discriminate].
  cbn. intro H. injection H as <-. exists c, e, s0. auto.
Qed.

Lemma rolling_from_nth (window : nat) (xs : list Q) :
  forall (seen : list Q) (i : nat) (x : Q),
    nth_error xs i = Some x ->
    nth_error (rolling_from window seen xs) i
    = Some (if (List.length seen + S i <? window)%nat then None
            else Some (mean (firstn window (rev (firstn (S i) xs) ++ seen)))).
Proof.
  induction xs as [|x0 xs IH]; intros seen i x Hnth.
  - destruct i; discriminate.
  - destruct i as [|i].
    + cbn [rolling_from nth_error]. cbn [firstn rev app List.length].
      now rewrite Nat.add_1_r.
    + cbn [nth_error] in Hnth. cbn [rolling_from nth_error].
      rewrite (IH (x0 :: seen) i x Hnth). cbn [List.length].
      replace (S (List.length seen) + S i)%nat
        with (List.length seen + S (S i))%nat by lia.
      change (firstn (S (S i)) (x0 :: xs)) with (x0 :: firstn (S i) xs).
      cbn [rev]. now rewrite <- app_assoc.
Qed.

Lemma In_firstn_In {A : Type} (n : nat) (l : list A) (x : A) :
  In x (firstn n l) -> In x l.
Proof.
  intro H. rewrite <- (firstn_skipn n l). apply in_or_app. now left.
Qed.

(** A value of the rolling mean is the mean of a non-empty window of the
    values given. *)
Lemma rolling_from_window (window : nat) (xs seen : list Q) (i : nat) (m : Q) :
  (0 < window)%nat ->
  nth_error (rolling_from window seen xs) i = Some (Some m) ->
  exists l : list Q,
    l <> [] /\ (forall y, In y l -> In y xs \/ In y seen) /\ m = mean l.
Proof.
  intros Hw Hm.
  assert (Hi : (i < List.length xs)%nat).
  { rewrite <- (rolling_from_length window seen xs).
    apply nth_error_Some. congruence. }
  destruct (nth_error xs i) as [x|] eqn:Hx;
    [|apply nth_error_None in Hx; lia].
  rewrite (rolling_from_nth window xs seen i x Hx) in Hm.
  destruct (_ <? _)%nat; [discriminate|]. injection Hm as <-.
  exists (firstn window (rev (firstn (S i) xs) ++ seen)).
  split; [|split; [|reflexivity]].
  - intro Hnil. apply (f_equal (@List.length Q)) in Hnil.
    rewrite length_firstn, length_app, length_rev, length_firstn in Hnil.
    cbn [List.length] in Hnil. lia.
  - intros y Hy. apply In_firstn_In in Hy. apply in_app_or in Hy.
    destruct Hy as [Hy|Hy]; [left|now right].
    apply in_rev in Hy. now apply In_firstn_In in Hy.
Qed.

Lemma filter_is_skipn {A : Type} (p : A -> bool) (l : list A) :
  forall n : nat,
    (forall i x, nth_error l i = Some x -> p x = (n <=? i)%nat) ->
    filter p l = skipn n l.
Proof.
  induction l as [|a l IH]; intros n H.
  - now rewrite skipn_nil.
  - cbn [filter]. rewrite (H 0%nat a eq_refl). destruct n as [|n].
    + cbn [Nat.leb skipn]. f_equal.
      change l with (skipn 0 l) at 2. apply IH.
      intros i x Hi. apply (H (S i) x Hi).
    + cbn [Nat.leb skipn]. apply IH.
      intros i x Hi. apply (H (S i) x Hi).
Qed.

(** [dropna] removes the first 20 rows and nothing else. *)
Lemma dropna_is_skipn (df : list Candle) :
  dropna (add_columns df) = skipn 20 (add_columns df).
Proof.
  unfold dropna. apply filter_is_skipn. intros i r Hr.
  destruct (add_columns_nth df i r Hr) as (c & e & s0 & Hc & _ & Hs & ->).
  cbn [SMA21]. unfold rolling_mean in Hs.
  assert (Hx : nth_error (map close df) i = Some (close c))
    by (rewrite nth_error_map, Hc; reflexivity).
  rewrite (rolling_from_nth 21 _ [] i _ Hx) in Hs. injection Hs as <-.
  cbn [List.length Nat.add].
  destruct (S i <? 21)%nat eqn:E; cbn [has_value]; symmetry.
  - apply Nat.ltb_lt in E. apply Nat.leb_gt. lia.
  - apply Nat.ltb_ge in E. apply Nat.leb_le. lia.
Qed.

Lemma calculate_indicators_nth (df : list Candle) (j : nat) :
  nth_error (calculate_indicators df) j = nth_error (add_columns df) (20 + j).
Proof.
  destruct df as [|c df].
  - cbn. now destruct j.
  - unfold calculate_indicators.
    now rewrite dropna_is_skipn, nth_error_skipn.
Qed.

Lemma sum_app (l1 l2 : list Q) :
  fold_right Qplus 0 (l1 ++ l2) == fold_right Qplus 0 l1 + fold_right Qplus 0 l2.
Proof.
  induction l1 as [|x l1 IH]; cbn; [ring|]. rewrite IH. ring.
Qed.

Lemma mean_rev (l : list Q) : mean (rev l) == mean l.
Proof.
  unfold mean. rewrite length_rev.
  assert (E : fold_right Qplus 0 (rev l) == fold_right Qplus 0 l).
  { induction l as [|x l IH]; cbn; [reflexivity|].
    rewrite sum_app, IH. cbn. ring. }
  now rewrite E.
Qed.

Lemma ewm_from_nth_succ (a : Q) (xs : list Q) :
  forall (prev : Q) (i : nat) (e x : Q),
    nth_error (ewm_from a prev xs) i = Some e ->
    nth_error xs (S i) = Some x ->
    nth_error (ewm_from a prev xs) (S i) = Some ((1 - a) * e + a * x).
Proof.
  induction xs as [|x0 xs IH]; intros prev i e x He Hx.
  - discriminate.
  - destruct i as [|i].
    + cbn in He. injection He as <-. cbn in Hx.
      destruct xs as [|x1 xs]; [discriminate|]. cbn in Hx. injection Hx as <-.
      reflexivity.
    + cbn [ewm_from nth_error] in *. now apply IH.
Qed.

Lemma ewm_mean_nth_succ (span : Z) (xs : list Q) (i : nat) (e x : Q) :
  nth_error (ewm_mean span xs) i = Some e ->
  nth_error xs (S i) = Some x ->
  nth_error (ewm_mean span xs) (S i)
  = Some ((1 - alpha span) * e + alpha span * x).
Proof.
  destruct xs as [|x0 xs]; [discriminate|].
  destruct i as [|i]; intros He Hx.
  - cbn in He. injection He as <-. cbn in Hx.
    destruct xs as [|x1 xs]; [discriminate|]. cbn in Hx. injection Hx as <-.
    reflexivity.
  - cbn [ewm_mean nth_error] in *. now apply ewm_from_nth_succ.
Qed.

Lemma max_between (lo hi e v : Q) :
  lo <= e <= hi -> lo <= v <= hi -> lo <= Qmax e v <= hi.
Proof.
  intros He Hv.
  destruct (Q.max_spec e v) as [[_ E]|[_ E]]; rewrite E; assumption.
Qed.

Lemma min_between (lo hi e v : Q) :
  lo <= e <= hi -> lo <= v <= hi -> lo <= Qmin e v <= hi.
Proof.
  intros He Hv.
  destruct (Q.min_spec e v) as [[_ E]|[_ E]]; rewrite E; assumption.
Qed.

(** With every close between two bounds, so is everything the indicator
    columns hold. *)
Lemma row_between (lo hi : Q) (df : list Candle) (i : nat) (r : Row) :
  Forall (fun c => lo <= close c <= hi) df ->
  nth_error (add_columns df) i = Some r ->
  lo <= EMA34 r <= hi /\ cell_between lo hi (SMA21 r) /\
  lo <= upper_band r <= hi /\ lo <= lower_band r <= hi /\
  lo <= close (candle r) <= hi.
Proof.
  intros Hdf Hr.
  assert (Hxs : Forall (fun x => lo <= x <= hi) (map close df)).
  { rewrite Forall_map. exact Hdf. }
  destruct (add_columns_nth df i r Hr) as (c & e & s0 & Hc & He & Hs & ->).
  cbn [EMA34 SMA21 upper_band lower_band candle].
  assert (Hce : lo <= close c <= hi).
  { rewrite Forall_forall in Hdf. apply Hdf. eapply nth_error_In. exact Hc. }
  assert (Hee : lo <= e <= hi).
  { pose proof (ewm_mean_between lo hi _ Hxs) as H.
    rewrite Forall_forall in H. apply H. eapply nth_error_In. exact He. }
  assert (Hss : cell_between lo hi s0).
  { destruct s0 as [m|]; [|exact I]. cbn [cell_between].
    unfold rolling_mean in Hs.
    destruct (rolling_from_window 21 _ [] i m ltac:(lia) Hs) as (l & Hne & Hin & ->).
    apply mean_between; [exact Hne|].
    rewrite Forall_forall in Hxs |- *. intros y Hy. apply Hxs.
    destruct (Hin y Hy) as [H|[]]. exact H. }
  split; [exact Hee|]. split; [exact Hss|].
  destruct s0 as [v|]; cbn [row_max row_min cell_between] in *.
  - split; [now apply max_between|]. split; [now apply min_between|exact Hce].
  - auto.
Qed.

Lemma indicators_row_position (df : list Candle) (r : Row) :
  In r (calculate_indicators df) ->
  exists j : nat, nth_error (add_columns df) (20 + j) = Some r.
Proof.
  intro Hin. apply In_nth_error in Hin. destruct Hin as [j Hj].
  exists j. now rewrite <- calculate_indicators_nth.
Qed.

Lemma iloc_In (df : DataFrame) (i : Z) (r : Row) :
  iloc df i = Some r -> In r df.
Proof.
  unfold iloc. destruct (i <? 0)%Z.
  - destruct (0 <=? _)%Z; [|discriminate]. apply nth_error_In.
  - apply nth_error_In.
Qed.

Lemma skipn_cons_nth (l : list Q) :
  forall j : nat,
    (j < List.length l)%nat -> skipn j l = nth j l 0 :: skipn (S j) l.
Proof.
  induction l as [|x l IH]; intros [|j] Hj; cbn [List.length] in Hj; try lia.
  - reflexivity.
  - cbn [skipn nth]. rewrite (IH j) by lia. reflexivity.
Qed.

(** A window of a list, position by position. *)
Lemma window_is_seq (l : list Q) (n : nat) :
  forall j : nat,
    (j + n <= List.length l)%nat ->
    firstn n (skipn j l) = map (fun t => nth t l 0) (seq j n).
Proof.
  induction n as [|n IH]; intros j Hj; [reflexivity|].
  rewrite (skipn_cons_nth l j) by lia.
  cbn [firstn seq map]. f_equal. apply IH. lia.
Qed.

(** The column [ewm(span=34, adjust=False).mean()] holds the exponential
    average of each index. *)
Lemma ewm_mean_is_fastAvg (xs : list Q) :
  forall (i : nat) (e : Q),
    nth_error (ewm_mean 34 xs) i = Some e -> e == Snapshot.fastAvg xs i.
Proof.
  induction i as [|i IH]; intros e He.
  - destruct xs as [|x xs]; [discriminate|]. cbn in He. injection He as <-.
    reflexivity.
  - assert (Hlen : (S i < List.length xs)%nat).
    { rewrite <- (ewm_mean_length 34 xs). apply nth_error_Some. congruence. }
    destruct (nth_error (ewm_mean 34 xs) i) as [e'|] eqn:He';
      [|apply nth_error_None in He'; rewrite ewm_mean_length in He'; lia].
    destruct (nth_error xs (S i)) as [x|] eqn:Hx;
      [|apply nth_error_None in Hx; lia].
    rewrite (ewm_mean_nth_succ 34 xs i e' x He' Hx) in He. injection He as <-.
    cbn [Snapshot.fastAvg]. rewrite (nth_error_nth xs (S i) 0 Hx).
    rewrite (IH e' eq_refl).
    change (alpha 34) with Snapshot.k. ring.
Qed.

(** A row of the annotated series, column by column: its candle, the
    exponential and the simple average of its index, and the two bands made
    of them. *)
Lemma indicator_row_values (df : list Candle) (j : nat) (r : Row) :
  nth_error (calculate_indicators df) j = Some r ->
  nth_error df (20 + j) = Some (candle r) /\
  EMA34 r == Snapshot.fastAvg (map close df) (20 + j) /\
  exists sma : Q,
    SMA21 r = Some sma /\
    sma == Snapshot.slowAvg (map close df) (20 + j) /\
    upper_band r = Qmax (EMA34 r) sma /\
    lower_band r = Qmin (EMA34 r) sma.
Proof.
  intro Hr. rewrite calculate_indicators_nth in Hr.
  remember (20 + j)%nat as i eqn:Hi.
  destruct (add_columns_nth df _ r Hr) as (c & e & s0 & Hc & He & Hs & ->).
  cbn [candle EMA34 SMA21 upper_band lower_band].
  split; [exact Hc|]. split; [now apply ewm_mean_is_fastAvg|].
  assert (Hx : nth_error (map close df) i = Some (close c))
    by (rewrite nth_error_map, Hc; reflexivity).
  assert (Hlen : (i < List.length (map close df))%nat)
    by (apply nth_error_Some; congruence).
  unfold rolling_mean in Hs.
  rewrite (rolling_from_nth 21 _ [] _ _ Hx) in Hs.
  destruct (@List.length Q [] + S i <? 21)%nat eqn:E.
  { apply Nat.ltb_lt in E. cbn [List.length] in E. lia. }
  exists (mean (firstn 21 (rev (firstn (S i) (map close df)) ++ []))).
  assert (Es : s0 = Some (mean (firstn 21 (rev (firstn (S i) (map close df)) ++ []))))
    by congruence.
  split; [exact Es|]. split.
  - rewrite app_nil_r.
    assert (Hl : List.length (firstn (S i) (map close df)) = S i)
      by (apply firstn_length_le; lia).
    rewrite firstn_rev, Hl, mean_rev.
    replace (S i - 21)%nat with j by lia.
    rewrite skipn_firstn_comm.
    replace (S i - j)%nat with 21%nat by lia.
    rewrite (window_is_seq (map close df) 21 j) by lia.
    unfold mean, Snapshot.slowAvg. rewrite length_map, length_seq.
    replace (i - 20)%nat with j by lia. reflexivity.
  - rewrite Es. cbn [row_max row_min]. auto.
Qed.

End IndicatorValues.

Section IndicatorClaims.

Import Py Strategy Samples.

(** C8: the candles of the annotated series are the input candles with the
    first 20 removed; so a series of fewer than 21 candles gives an empty
    annotated series and a series of at least 21 loses exactly its first 20
    candles.  Every remaining row carries the band snapshot of its candle:
    row j belongs to input candle 20 + j, its EMA34 is the exponential
    average (span 34, seeded with the first close of the input) at that
    index, its SMA21 is present and is the mean of the 21 closes ending at
    that index, the upper band is the maximum and the lower band the
    minimum of the two. *)
Theorem indicators_drop_warm_up (df : list Candle) :
  map candle (calculate_indicators df) = skipn 20 df /\
  ((List.length df < 21)%nat -> calculate_indicators df = []) /\
  ((21 <= List.length df)%nat ->
     List.length (calculate_indicators df) = (List.length df - 20)%nat) /\
  Forall (fun r => exists sma : Q,
              SMA21 r = Some sma /\
              upper_band r = Qmax (EMA34 r) sma /\
              lower_band r = Qmin (EMA34 r) sma /\
              lower_band r <= upper_band r)
         (calculate_indicators df) /\
  (forall (j : nat) (r : Row),
      nth_error (calculate_indicators df) j = Some r ->
      nth_error df (20 + j) = Some (candle r) /\
      EMA34 r == Snapshot.fastAvg (map close df) (20 + j) /\
      exists sma : Q,
        SMA21 r = Some sma /\
        sma == Snapshot.slowAvg (map close df) (20 + j) /\
        upper_band r = Qmax (EMA34 r) sma /\
        lower_band r = Qmin (EMA34 r) sma).
Proof.
  pose proof (candles_of_indicators df) as Hc.
  split; [exact Hc|]. split; [|split; [|split]].
  - intro Hshort. rewrite skipn_all2 in Hc by lia.
    now apply map_eq_nil in Hc.
  - intros _. rewrite <- (length_map candle), Hc. apply length_skipn.
  - apply Forall_forall. intros r Hin.
    apply In_nth_error in Hin. destruct Hin as [j Hj].
    destruct (indicator_row_values df j r Hj) as (_ & _ & sma & Hs & _ & Hup & Hlo).
    exists sma. rewrite Hup, Hlo. repeat split; try assumption.
    apply Qle_trans with (EMA34 r); [apply Q.le_min_l|apply Q.le_max_l].
  - intros j r Hr. apply (indicator_row_values df j r Hr).
Qed.

Lemma indicators_drop_warm_up_witness :
  calculate_indicators (flat_candles 20) = [] /\
  List.length (calculate_indicators (flat_candles 23)) = 3%nat /\
  exists r : Row,
    nth_error (calculate_indicators (flat_candles 22)) 1 = Some r /\
    EMA34 r == 100 /\
    exists sma : Q, SMA21 r = Some sma /\ sma == 100.
Proof.
  split; [|split].
  - apply (proj1 (proj2 (indicators_drop_warm_up (flat_candles 20)))).
    cbn. lia.
  - apply (proj1 (proj2 (proj2 (indicators_drop_warm_up (flat_candles 23))))).
    cbn. lia.
  - destruct (nth_error (calculate_indicators (flat_candles 22)) 1) as [r|] eqn:E;
      [|vm_compute in E; discriminate E].
    exists r. split; [reflexivity|].
    destruct (proj2 (proj2 (proj2 (proj2 (indicators_drop_warm_up (flat_candles 22)))))
                1%nat r E) as (_ & He & sma & Hs & Hm & _).
    split.
    + rewrite He. vm_compute. reflexivity.
    + exists sma. split; [exact Hs|]. rewrite Hm. vm_compute. reflexivity.
Defined.

End IndicatorClaims.

Section IndicatorExtras.

Import Py Strategy Polls Samples.

(** X6: the row at position j of the annotated series belongs to the input
    candle at position 20 + j, and its SMA21 is the arithmetic mean of the
    21 closes that end at that candle, i.e. of the closes at positions j to
    20 + j. *)
Theorem sma_is_mean_of_last_21_closes (df : list Candle) (j : nat) (r : Row) :
  nth_error (calculate_indicators df) j = Some r ->
  nth_error df (20 + j) = Some (candle r) /\
  exists m : Q,
    SMA21 r = Some m /\
    m == mean (firstn 21 (skipn j (map close df))).
Proof.
  intro Hr. rewrite calculate_indicators_nth in Hr.
  remember (20 + j)%nat as k eqn:Hk.
  destruct (add_columns_nth df _ r Hr) as (c & e & s0 & Hc & _ & Hs & ->).
  cbn [candle SMA21]. split; [exact Hc|].
  assert (Hx : nth_error (map close df) k = Some (close c))
    by (rewrite nth_error_map, Hc; reflexivity).
  unfold rolling_mean in Hs.
  rewrite (rolling_from_nth 21 _ [] _ _ Hx) in Hs.
  destruct (@List.length Q [] + S k <? 21)%nat eqn:E.
  { apply Nat.ltb_lt in E. cbn [List.length] in E. lia. }
  exists (mean (firstn 21 (rev (firstn (S k) (map close df)) ++ []))).
  split; [congruence|].
  rewrite app_nil_r.
  assert (Hlen : List.length (firstn (S k) (map close df)) = S k).
  { apply firstn_length_le.
    assert (H : nth_error (map close df) k <> None) by congruence.
    apply nth_error_Some in H. lia. }
  rewrite firstn_rev, Hlen, mean_rev.
  replace (S k - 21)%nat with j by lia.
  rewrite skipn_firstn_comm.
  replace (S k - j)%nat with 21%nat by lia.
  reflexivity.
Qed.

Lemma sma_is_mean_of_last_21_closes_witness :
  exists r : Row,
    nth_error (calculate_indicators (flat_candles 22)) 1 = Some r /\
    exists m : Q, SMA21 r = Some m /\ m == 100.
Proof.
  destruct (nth_error (calculate_indicators (flat_candles 22)) 1) as [r|] eqn:E;
    [|vm_compute in E; discriminate E].
  exists r. split; [reflexivity|].
  destruct (sma_is_mean_of_last_21_closes (flat_candles 22) 1 r E)
    as (_ & m & Hm & Hmean).
  exists m. split; [exact Hm|]. rewrite Hmean. vm_compute. reflexivity.
Defined.

(** X7: along the annotated series the EMA34 column follows the recurrence
    of an exponential average of span 34: each row's value is 33/35 of the
    value of the row before plus 2/35 of its own close. *)
Theorem ema_follows_recurrence (df : list Candle) (j : nat) (r r' : Row) :
  nth_error (calculate_indicators df) j = Some r ->
  nth_error (calculate_indicators df) (S j) = Some r' ->
  EMA34 r' == (33 # 35) * EMA34 r + (2 # 35) * close (candle r').
Proof.
  intros Hr Hr'. rewrite calculate_indicators_nth in Hr, Hr'.
  replace (20 + S j)%nat with (S (20 + j)) in Hr' by lia.
  destruct (add_columns_nth df _ r Hr) as (c & e & s0 & Hc & He & _ & ->).
  destruct (add_columns_nth df _ r' Hr') as (c' & e' & s1 & Hc' & He' & _ & ->).
  cbn [EMA34 candle].
  assert (Hx : nth_error (map close df) (S (20 + j)) = Some (close c'))
    by (rewrite nth_error_map, Hc'; reflexivity).
  rewrite (ewm_mean_nth_succ 34 _ _ e (close c') He Hx) in He'.
  injection He' as <-.
  assert (Ea : alpha 34 == 2 # 35) by reflexivity.
  rewrite Ea. ring.
Qed.

Lemma ema_follows_recurrence_witness :
  exists r r' : Row,
    nth_error (calculate_indicators (flat_candles 22)) 0 = Some r /\
    nth_error (calculate_indicators (flat_candles 22)) 1 = Some r' /\
    EMA34 r' == (33 # 35) * EMA34 r + (2 # 35) * close (candle r').
Proof.
  destruct (nth_error (calculate_indicators (flat_candles 22)) 0) as [r|] eqn:E;
    [|vm_compute in E; discriminate E].
  destruct (nth_error (calculate_indicators (flat_candles 22)) 1) as [r'|] eqn:E';
    [|vm_compute in E'; discriminate E'].
  exists r, r'. split; [reflexivity|]. split; [reflexivity|].
  apply (ema_follows_recurrence (flat_candles 22) 0 r r' E E').
Defined.

(** X8: when every close of the input lies between two bounds, so do both
    averages and both bands of every row of the annotated series, with the
    lower band never above the upper band. *)
Theorem bands_stay_within_range_of_closes (lo hi : Q) (df : list Candle) :
  Forall (fun c => lo <= close c <= hi) df ->
  Forall (fun r => lo <= lower_band r /\ lower_band r <= upper_band r /\
                   upper_band r <= hi /\ lo <= EMA34 r <= hi /\
                   cell_between lo hi (SMA21 r))
         (calculate_indicators df).
Proof.
  intro Hdf. apply Forall_forall. intros r Hin.
  destruct (indicators_row_position df r Hin) as [j Hj].
  destruct (row_between lo hi df _ r Hdf Hj) as (He & Hs & Hu & Hl & _).
  destruct (add_columns_nth df _ r Hj) as (c & e & s0 & _ & _ & _ & ->).
  cbn [lower_band upper_band EMA34 SMA21] in *.
  repeat split; try tauto.
  destruct s0 as [v|]; cbn [row_min row_max].
  - apply Qle_trans with e; [apply Q.le_min_l|apply Q.le_max_l].
  - apply Qle_refl.
Qed.

Lemma bands_stay_within_range_of_closes_witness :
  Forall (fun r => 100 <= lower_band r /\ lower_band r <= upper_band r /\
                   upper_band r <= 100 /\ 100 <= EMA34 r <= 100 /\
                   cell_between 100 100 (SMA21 r))
         (calculate_indicators (flat_candles 22)).
Proof.
  apply (bands_stay_within_range_of_closes 100 100 (flat_candles 22)).
  repeat constructor; vm_compute; discriminate.
Defined.

(** X9: in a flat market nothing is armed.  When all closes of the input
    are equal, a call of [get_signal] on the annotated series by a strategy
    without pending signal returns no signal and leaves the strategy as it
    was. *)
Theorem flat_market_arms_nothing (P : Q) (df : list Candle) (self : BandStrategy) :
  Forall (fun c => close c == P) df ->
  pending_signal self = None ->
  get_signal self (calculate_indicators df) = (self, None).
Proof.
  intros Hflat Hno.
  assert (Hdf : Forall (fun c => P <= close c <= P) df).
  { eapply Forall_impl; [|exact Hflat]. cbn. intros c Hc. rewrite Hc. split; apply Qle_refl. }
  pose proof (get_signal_path self (calculate_indicators df)) as Hpath.
  inversion Hpath as [Hl Heq | p a c Hl Hps' Hlc' Hc Ht Heq | p a c Hl Hps' Hlc' Hc Ht Heq
                      | p a c Hl Hps' Hlc' Hc Ht Heq | prev s Hl Hno' Hprev Hb Heq
                      | prev Hl Hno' Hprev Hb Heq]; try congruence.
  exfalso. apply iloc_In in Hprev.
  destruct (indicators_row_position df prev Hprev) as [j Hj].
  destruct (row_between P P df _ prev Hdf Hj) as (_ & _ & Hu & Hlw & Hc).
  unfold breakout in Hb.
  destruct (ltb (upper_band prev) (close (candle prev))) eqn:Ea.
  - apply ltb_lt in Ea. lra.
  - destruct (ltb (close (candle prev)) (lower_band prev)) eqn:Eb; [|discriminate].
    apply ltb_lt in Eb. lra.
Qed.

Lemma flat_market_arms_nothing_witness :
  get_signal default (calculate_indicators (flat_candles 23)) = (default, None).
Proof.
  apply (flat_market_arms_nothing 100 (flat_candles 23) default).
  - repeat constructor.
  - reflexivity.
Defined.

End IndicatorExtras.

(** ** Levels, lots and closing *)

Section LevelExtras.

Import Py PyMore Strategy StrategyRest Polls Samples.

#[global] Instance ltb_comp : Proper (Qeq ==> Qeq ==> eq) ltb.
Proof.
  intros x x' Hx y y' Hy. unfold ltb. now rewrite Hx, Hy.
Qed.

Lemma max2_is_Qmax (a b : Q) : max2 a b == Qmax a b.
Proof.
  unfold max2. destruct (ltb a b) eqn:E.
  - apply ltb_lt in E. symmetry. apply Q.max_r. lra.
  - apply ltb_ge in E. symmetry. apply Q.max_l. exact E.
Qed.

Lemma min2_is_Qmin (a b : Q) : min2 a b == Qmin a b.
Proof.
  unfold min2. destruct (ltb b a) eqn:E.
  - apply ltb_lt in E. symmetry. apply Q.min_r. lra.
  - apply ltb_ge in E. symmetry. apply Q.min_l. exact E.
Qed.

(** The builtin [max] and [min] of the two averages are the band columns. *)
Lemma max_nan_is_row_max (e : Q) (s : option Q) : max_nan e s == row_max e s.
Proof. destruct s; cbn; [apply max2_is_Qmax|reflexivity]. Qed.

Lemma min_nan_is_row_min (e : Q) (s : option Q) : min_nan e s == row_min e s.
Proof. destruct s; cbn; [apply min2_is_Qmin|reflexivity]. Qed.

(** X10: with multipliers that are not negative, the levels bracket the
    entry price: for a long the stop loss is at or below the rounded entry
    price and the take profit at or above it, for a short the other way
    round. *)
Theorem entry_levels_bracket_entry
    (self : BandStrategy) (entry : Q) (bands : Bands) :
  0 <= tp_multiplier self -> 0 <= sl_multiplier self ->
  (snd (calculate_entry_levels self entry bands true) <= round entry 4 /\
   round entry 4 <= fst (calculate_entry_levels self entry bands true)) /\
  (fst (calculate_entry_levels self entry bands false) <= round entry 4 /\
   round entry 4 <= snd (calculate_entry_levels self entry bands false)).
Proof.
  intros Htp Hsl.
  pose proof (Qabs_nonneg (upper bands - lower bands)) as Hw.
  assert (H1 : 0 <= Qabs (upper bands - lower bands) * tp_multiplier self)
    by (apply Qmult_le_0_compat; assumption).
  assert (H2 : 0 <= Qabs (upper bands - lower bands) * sl_multiplier self)
    by (apply Qmult_le_0_compat; assumption).
  rewrite !calculate_entry_levels_eq. unfold price_levels. cbn [fst snd].
  repeat split; apply round_mono; lra.
Qed.

Lemma entry_levels_bracket_entry_witness :
  (snd (calculate_entry_levels default 100 (mkBands 105 95) true) <= round 100 4 /\
   round 100 4 <= fst (calculate_entry_levels default 100 (mkBands 105 95) true)) /\
  (fst (calculate_entry_levels default 100 (mkBands 105 95) false) <= round 100 4 /\
   round 100 4 <= snd (calculate_entry_levels default 100 (mkBands 105 95) false)).
Proof.
  apply (entry_levels_bracket_entry default 100 (mkBands 105 95));
    vm_compute; discriminate.
Defined.

(** X11: the levels depend on the distance between the two bands only:
    with the upper and the lower band exchanged the result is the same. *)
Theorem entry_levels_ignore_band_order
    (self : BandStrategy) (entry u l : Q) (is_long : bool) :
  calculate_entry_levels self entry (mkBands u l) is_long
  = calculate_entry_levels self entry (mkBands l u) is_long.
Proof.
  unfold calculate_entry_levels, price_levels. cbn [upper lower].
  now rewrite (Qabs_Qminus u l).
Qed.

(** X12: given both keys, a positive minimum size and a non-zero price and
    contract value, [calculate_position_size] returns a whole number, at
    least one, of minimum sizes; when the raw number of contracts is at
    least the minimum size the result is within half a minimum size of
    it. *)
Theorem contracts_are_whole_lots
    (self : BandStrategy) (current_price : Q) (market_info : list (string * Q))
    (contract_value min_size : Q) :
  dict_get market_info "contractValue" = Some contract_value ->
  dict_get market_info "minSize" = Some min_size ->
  0 < min_size ->
  ~ current_price * contract_value == 0 ->
  let raw := position_size_usd self * inject_Z (leverage self)
             / (current_price * contract_value) in
  exists (contracts : Q) (k : Z),
    StrategyRest.calculate_position_size self current_price market_info
    = inr contracts /\
    (1 <= k)%Z /\ contracts == inject_Z k * min_size /\
    min_size <= contracts /\
    (min_size <= raw -> Qabs (contracts - raw) <= min_size / 2).
Proof.
  intros Hcv Hms Hpos Hden raw.
  unfold StrategyRest.calculate_position_size, dict_index, bind, div, ret.
  rewrite Hcv, Hms.
  destruct (Qeq_bool (current_price * contract_value) 0) eqn:E1.
  { apply Qeq_bool_iff in E1. contradiction. }
  destruct (Qeq_bool min_size 0) eqn:E2.
  { apply Qeq_bool_iff in E2. lra. }
  fold raw.
  set (k0 := round_half_even (raw / min_size)).
  destruct (round_half_even_near (raw / min_size)) as [Hlo Hhi]. fold k0 in Hlo, Hhi.
  assert (Hraw : raw == raw / min_size * min_size) by (field; lra).
  assert (Hclose : Qabs (inject_Z k0 * min_size - raw) <= min_size / 2).
  { apply Qabs_Qle_condition.
    assert (Ea : inject_Z k0 * min_size - raw
                 == (inject_Z k0 - raw / min_size) * min_size) by (field; lra).
    rewrite Ea. split.
    - setoid_replace (- (min_size / 2)) with ((- (1 # 2)) * min_size) by field.
      apply Qmult_le_compat_r; lra.
    - setoid_replace (min_size / 2) with ((1 # 2) * min_size) by field.
      apply Qmult_le_compat_r; lra. }
  unfold max2. destruct (ltb min_size (inject_Z k0 * min_size)) eqn:El.
  - apply ltb_lt in El.
    assert (Hk : (1 < k0)%Z).
    { rewrite Zlt_Qlt. apply (Qmult_lt_r _ _ min_size Hpos).
      change (inject_Z 1) with 1. lra. }
    exists (inject_Z k0 * min_size), k0.
    split; [reflexivity|]. split; [lia|]. split; [reflexivity|].
    split; [lra|]. intros _. exact Hclose.
  - apply ltb_ge in El.
    exists min_size, 1%Z.
    split; [reflexivity|]. split; [lia|].
    split; [change (inject_Z 1) with 1; ring|].
    split; [apply Qle_refl|]. intro Hge.
    assert (H1 : (1 <= k0)%Z).
    { rewrite <- (round_half_even_inject_Z 1). apply round_half_even_mono.
      change (inject_Z 1) with 1. apply Qle_shift_div_l; lra. }
    assert (Hk1 : inject_Z 1 <= inject_Z k0) by (rewrite <- Zle_Qle; exact H1).
    change (inject_Z 1) with 1 in Hk1.
    assert (Hge' : min_size <= inject_Z k0 * min_size).
    { setoid_replace min_size with (1 * min_size) at 1 by ring.
      apply Qmult_le_compat_r; lra. }
    assert (Eq : min_size == inject_Z k0 * min_size) by (apply Qle_antisym; assumption).
    rewrite Eq at 1. exact Hclose.
Qed.

Lemma contracts_are_whole_lots_witness :
  exists (contracts : Q) (k : Z),
    StrategyRest.calculate_position_size default 50
      [("contractValue"%string, 1 # 10); ("minSize"%string, 1)] = inr contracts /\
    (1 <= k)%Z /\ contracts == inject_Z k * 1 /\ 1 <= contracts /\
    (1 <= 100 * inject_Z 3 / (50 * (1 # 10)) ->
     Qabs (contracts - 100 * inject_Z 3 / (50 * (1 # 10))) <= 1 / 2).
Proof.
  apply (contracts_are_whole_lots default 50
           [("contractValue"%string, 1 # 10); ("minSize"%string, 1)] (1 # 10) 1).
  - reflexivity.
  - reflexivity.
  - reflexivity.
  - vm_compute. discriminate.
Defined.

Lemma indicators_bands (candles : list Candle) (r : Row) :
  In r (calculate_indicators candles) ->
  upper_band r = row_max (EMA34 r) (SMA21 r) /\
  lower_band r = row_min (EMA34 r) (SMA21 r).
Proof.
  intro Hin. destruct (indicators_row_position candles r Hin) as [j Hj].
  pose proof (add_columns_bands candles) as Hb. rewrite Forall_forall in Hb.
  apply Hb. eapply nth_error_In. exact Hj.
Qed.

(** X13: on an annotated series, a position is closed exactly when the last
    candle closes strictly beyond the band on the losing side: a long
    (side 'buy') when the close is below the lower band, any other side
    when the close is above the upper band.  A close on a band or inside
    closes nothing. *)
Theorem position_closed_only_outside_band
    (candles : list Candle) (pos : Position) (side : string) (latest : Row) :
  pos <> [] ->
  dict_get pos "side" = Some side ->
  iloc (calculate_indicators candles) (-1) = Some latest ->
  exists b : bool,
    should_close_position (calculate_indicators candles) (Some pos) = inr b /\
    (b = true <->
     (side = "buy"%string /\ close (candle latest) < lower_band latest) \/
     (side <> "buy"%string /\ upper_band latest < close (candle latest))).
Proof.
  intros Hne Hside Hlatest.
  destruct (indicators_bands candles latest (iloc_In _ _ _ Hlatest)) as [Hup Hlo].
  unfold should_close_position. destruct pos as [|kv pos]; [congruence|].
  rewrite Hlatest. unfold bind, ret, dict_index. rewrite Hside.
  rewrite (ltb_comp _ _ (Qeq_refl _) _ _ (min_nan_is_row_min _ _)), <- Hlo.
  rewrite (ltb_comp _ _ (max_nan_is_row_max _ _) _ _ (Qeq_refl _)), <- Hup.
  destruct (String.eqb_spec side "buy") as [Hbuy|Hbuy]; cbn [andb negb].
  - destruct (ltb (close (candle latest)) (lower_band latest)) eqn:E.
    + exists true. split; [reflexivity|]. apply ltb_lt in E. tauto.
    + exists false. split; [reflexivity|]. apply ltb_ge in E.
      split; [discriminate|]. intros [[_ H]|[H _]]; [lra|contradiction].
  - destruct (ltb (upper_band latest) (close (candle latest))) eqn:E.
    + exists true. split; [reflexivity|]. apply ltb_lt in E. tauto.
    + exists false. split; [reflexivity|]. apply ltb_ge in E.
      split; [discriminate|]. intros [[H _]|[_ H]]; [contradiction|lra].
Qed.

Lemma position_closed_only_outside_band_witness :
  exists (latest : Row) (b : bool),
    iloc (calculate_indicators (flat_candles 22)) (-1) = Some latest /\
    should_close_position (calculate_indicators (flat_candles 22))
      (Some [("side"%string, "buy"%string)]) = inr b /\
    (b = true <->
     ("buy"%string = "buy"%string /\ close (candle latest) < lower_band latest) \/
     ("buy"%string <> "buy"%string /\ upper_band latest < close (candle latest))).
Proof.
  destruct (iloc (calculate_indicators (flat_candles 22)) (-1)) as [latest|] eqn:E;
    [|vm_compute in E; discriminate E].
  destruct (position_closed_only_outside_band (flat_candles 22)
              [("side"%string, "buy"%string)] "buy" latest) as [b Hb].
  - discriminate.
  - reflexivity.
  - exact E.
  - exists latest, b. split; [reflexivity|exact Hb].
Defined.

(** X14: [should_close_position] looks at the frame only when it is given a
    position: without one ([None] or an empty dict) it returns False even on
    an empty frame; with one, an empty frame raises IndexError, and a
    position without the key 'side' raises KeyError. *)
Theorem should_close_position_edges :
  (forall df : DataFrame,
      should_close_position df None = inr false /\
      should_close_position df (Some []) = inr false) /\
  (forall pos : Position,
      pos <> [] -> should_close_position [] (Some pos) = inl IndexError) /\
  (forall (df : DataFrame) (pos : Position),
      pos <> [] -> df <> [] -> dict_get pos "side" = None ->
      should_close_position df (Some pos) = inl (KeyError "side")).
Proof.
  split; [|split].
  - intro df. split; reflexivity.
  - intros [|kv pos] Hne; [congruence|reflexivity].
  - intros df [|kv pos] Hne Hdf Hside; [congruence|].
    unfold should_close_position.
    assert (Hlast : exists r, iloc df (-1) = Some r).
    { unfold iloc. cbn [Z.ltb Z.compare].
      destruct df as [|r0 df]; [congruence|].
      assert (H : (0 <=? Z.of_nat (List.length (r0 :: df)) + -1)%Z = true)
        by (apply Z.leb_le; cbn [List.length]; lia).
      rewrite H.
      destruct (nth_error (r0 :: df) _) as [r|] eqn:E; [eauto|].
      apply nth_error_None in E. cbn [List.length] in *. lia. }
    destruct Hlast as [r ->]. unfold bind, ret, dict_index. now rewrite Hside.
Qed.

End LevelExtras.

(** ** More on position_calculator.py *)

Section PositionExtras.

Import Py PositionCalculator PositionCalculatorRest.

(** X15: [calculate_position_size] raises ZeroDivisionError when the price
    is zero and otherwise returns a size with at most 4 fractional digits
    (a whole number of ten-thousandths). *)
Theorem position_size_is_on_the_grid
    (price usd_size : Q) (leverage : Z) (symbol : string) :
  (price == 0 ->
   calculate_position_size price usd_size leverage symbol = inl ZeroDivisionError) /\
  (~ price == 0 ->
   exists (size : Q) (k : Z),
     calculate_position_size price usd_size leverage symbol = inr size /\
     size == inject_Z k / 10000).
Proof.
  unfold calculate_position_size, calculate_position_size_with. split; intro Hp.
  - apply Qeq_bool_iff in Hp. now rewrite Hp.
  - destruct (Qeq_bool price 0) eqn:E; [apply Qeq_bool_iff in E; contradiction|].
    destruct (round_minimum_amount symbol) as [_ Hmin8].
    destruct (ltb _ _).
    + destruct (get_minimum_amount_cases symbol) as [Hm|Hm].
      * eexists. exists 1000%Z. split; [reflexivity|].
        rewrite Hmin8, Hm. reflexivity.
      * eexists. exists 10000%Z. split; [reflexivity|].
        rewrite Hmin8, Hm. reflexivity.
    + eexists. eexists. split; [reflexivity|].
      rewrite (round_round _ 4 4). reflexivity.
Qed.

Lemma clamp_mono (m r1 r2 : Q) :
  r1 <= r2 ->
  (if ltb r1 m then m else r1) <= (if ltb r2 m then m else r2).
Proof.
  intro H.
  destruct (ltb r1 m) eqn:E1; destruct (ltb r2 m) eqn:E2;
    try apply ltb_lt in E1; try apply ltb_ge in E1;
    try apply ltb_lt in E2; try apply ltb_ge in E2; lra.
Qed.

(** X16: for a positive price and a leverage that is not negative, a larger
    USD amount never gives a smaller position size. *)
Theorem position_size_is_monotone
    (price usd1 usd2 : Q) (leverage : Z) (symbol : string) :
  0 < price -> (0 <= leverage)%Z -> usd1 <= usd2 ->
  exists size1 size2 : Q,
    calculate_position_size price usd1 leverage symbol = inr size1 /\
    calculate_position_size price usd2 leverage symbol = inr size2 /\
    size1 <= size2.
Proof.
  intros Hp Hl Hu. unfold calculate_position_size, calculate_position_size_with.
  destruct (Qeq_bool price 0) eqn:E; [apply Qeq_bool_iff in E; lra|].
  eexists. eexists. split; [reflexivity|]. split; [reflexivity|].
  apply round_mono, clamp_mono, round_mono.
  assert (Hl' : 0 <= inject_Z leverage).
  { change 0 with (inject_Z 0). now rewrite <- Zle_Qle. }
  unfold Qdiv. apply Qmult_le_compat_r.
  - apply Qmult_le_compat_r; assumption.
  - apply Qlt_le_weak, Qinv_lt_0_compat, Hp.
Qed.

Lemma position_size_is_monotone_witness :
  exists size1 size2 : Q,
    calculate_position_size 50 100 3 "BTC-USDT" = inr size1 /\
    calculate_position_size 50 200 3 "BTC-USDT" = inr size2 /\
    size1 <= size2.
Proof.
  apply (position_size_is_monotone 50 100 200 3 "BTC-USDT").
  - reflexivity.
  - lia.
  - vm_compute. discriminate.
Defined.

(** X17: only 'BTC-USDT' has the minimum amount 0.1; every other symbol,
    listed or not, gets 1.0, the value of the fallback entry. *)
Theorem minimum_amount_lookup (symbol : string) :
  (symbol = "BTC-USDT"%string -> get_minimum_amount symbol = 1 # 10) /\
  (symbol <> "BTC-USDT"%string -> get_minimum_amount symbol = 1).
Proof.
  unfold get_minimum_amount.
  change (dict_get MIN_AMOUNTS "DEFAULT") with (Some 1).
  unfold MIN_AMOUNTS. cbn [dict_get].
  destruct (String.eqb_spec symbol "BTC-USDT") as [->|Hne].
  - split; [reflexivity|congruence].
  - split; [congruence|]. intros _.
    destruct (String.eqb symbol "ETH-USDT"); [reflexivity|].
    destruct (String.eqb symbol "DEFAULT"); reflexivity.
Qed.

(** X18: for an entry price and percentages that are not negative,
    [calculate_tp_sl] brackets the entry price rounded to 8 digits: stop
    loss at or below and take profit at or above for a long, the other way
    round for a short; and the short result for exchanged percentages is
    the long result with its two prices exchanged. *)
Theorem tp_sl_bracket_entry (entry tp_percentage sl_percentage : Q) :
  0 <= entry -> 0 <= tp_percentage -> 0 <= sl_percentage ->
  (snd (calculate_tp_sl entry true tp_percentage sl_percentage) <= round entry 8 /\
   round entry 8 <= fst (calculate_tp_sl entry true tp_percentage sl_percentage)) /\
  (fst (calculate_tp_sl entry false tp_percentage sl_percentage) <= round entry 8 /\
   round entry 8 <= snd (calculate_tp_sl entry false tp_percentage sl_percentage)) /\
  calculate_tp_sl entry false sl_percentage tp_percentage
  = (snd (calculate_tp_sl entry true tp_percentage sl_percentage),
     fst (calculate_tp_sl entry true tp_percentage sl_percentage)).
Proof.
  intros He Htp Hsl.
  assert (H1 : 0 <= entry * (tp_percentage / 100))
    by (apply Qmult_le_0_compat; [|apply Qle_shift_div_l]; lra).
  assert (H2 : 0 <= entry * (sl_percentage / 100))
    by (apply Qmult_le_0_compat; [|apply Qle_shift_div_l]; lra).
  unfold calculate_tp_sl. cbn [fst snd].
  split; [|split]; [split| split |reflexivity]; apply round_mono.
  - setoid_replace (entry * (1 - sl_percentage / 100))
      with (entry - entry * (sl_percentage / 100)) by ring. lra.
  - setoid_replace (entry * (1 + tp_percentage / 100))
      with (entry + entry * (tp_percentage / 100)) by ring. lra.
  - setoid_replace (entry * (1 - tp_percentage / 100))
      with (entry - entry * (tp_percentage / 100)) by ring. lra.
  - setoid_replace (entry * (1 + sl_percentage / 100))
      with (entry + entry * (sl_percentage / 100)) by ring. lra.
Qed.

Lemma tp_sl_bracket_entry_witness :
  (snd (calculate_tp_sl 100 true 2 1) <= round 100 8 /\
   round 100 8 <= fst (calculate_tp_sl 100 true 2 1)) /\
  (fst (calculate_tp_sl 100 false 2 1) <= round 100 8 /\
   round 100 8 <= snd (calculate_tp_sl 100 false 2 1)) /\
  calculate_tp_sl 100 false 1 2
  = (snd (calculate_tp_sl 100 true 2 1), fst (calculate_tp_sl 100 true 2 1)).
Proof.
  apply (tp_sl_bracket_entry 100 2 1); vm_compute; discriminate.
Defined.

End PositionExtras.

(** ** Validation of the symbol *)

Section ValidationExtras.

Import Py Utils.

Local Open Scope string_scope.

Lemma length_append (s1 s2 : string) :
  String.length (s1 ++ s2) = (String.length s1 + String.length s2)%nat.
Proof. induction s1 as [|c s1 IH]; cbn; [reflexivity|now rewrite IH]. Qed.

Lemma substring_all (s : string) : substring 0 (String.length s) s = s.
Proof. induction s as [|c s IH]; cbn; [reflexivity|now rewrite IH]. Qed.

Lemma substring_after_prefix (p suffix : string) :
  substring (String.length p) (String.length suffix) (p ++ suffix) = suffix.
Proof.
  induction p as [|c p IH]; cbn [String.length append substring].
  - apply substring_all.
  - exact IH.
Qed.

Lemma substring_split (s : string) :
  forall k : nat,
    (k <= String.length s)%nat ->
    s = substring 0 k s ++ substring k (String.length s - k) s.
Proof.
  induction s as [|c s IH]; intros [|k] Hk; cbn in *; try lia.
  - reflexivity.
  - now rewrite substring_all.
  - rewrite <- IH by lia. reflexivity.
Qed.

(** [endswith] holds exactly of the strings that are something followed by
    the suffix. *)
Lemma endswith_spec (s suffix : string) :
  endswith s suffix = true <-> exists p : string, s = p ++ suffix.
Proof.
  unfold endswith. split.
  - destruct (String.length suffix <=? String.length s)%nat eqn:E; [|discriminate].
    apply Nat.leb_le in E. intro H. apply String.eqb_eq in H.
    exists (substring 0 (String.length s - String.length suffix) s).
    pose proof (substring_split s (String.length s - String.length suffix)
                  ltac:(lia)) as Hsplit.
    replace (String.length s - (String.length s - String.length suffix))%nat
      with (String.length suffix) in Hsplit by lia.
    rewrite H in Hsplit. exact Hsplit.
  - intros [p ->]. rewrite length_append.
    assert (E : (String.length suffix <=? String.length p + String.length suffix)%nat = true)
      by (apply Nat.leb_le; lia).
    rewrite E.
    replace (String.length p + String.length suffix - String.length suffix)%nat
      with (String.length p) by lia.
    rewrite substring_after_prefix. apply String.eqb_refl.
Qed.

Local Close Scope string_scope.

(** X19: [validate_input] returns normally exactly for a positive position
    size, a leverage of at least 1, positive TP and SL percentages and a
    symbol that is some string followed by '-USDT'; in every other case it
    raises a ValueError. *)
Theorem validate_input_accepts_exactly
    (symbol : string) (position_size : Q) (leverage : Z)
    (tp_percentage sl_percentage : Q) :
  (validate_input symbol position_size leverage tp_percentage sl_percentage = inr tt
   <-> 0 < position_size /\ (1 <= leverage)%Z /\
       0 < tp_percentage /\ 0 < sl_percentage /\
       exists base : string, symbol = (base ++ "-USDT")%string) /\
  (validate_input symbol position_size leverage tp_percentage sl_percentage = inr tt \/
   exists msg : string,
     validate_input symbol position_size leverage tp_percentage sl_percentage
     = inl (ValueError msg)).
Proof.
  unfold validate_input, leb.
  rewrite <- (endswith_spec symbol "-USDT").
  destruct (Qle_bool position_size 0) eqn:Es.
  { apply Qle_bool_iff in Es. split; [|eauto].
    split; [discriminate|]. intros (H & _). lra. }
  destruct (leverage <? 1)%Z eqn:El.
  { apply Z.ltb_lt in El. split; [|eauto].
    split; [discriminate|]. intros (_ & H & _). lia. }
  destruct (Qle_bool tp_percentage 0) eqn:Et.
  { apply Qle_bool_iff in Et. split; [|cbn; eauto].
    split; [discriminate|]. intros (_ & _ & H & _). lra. }
  destruct (Qle_bool sl_percentage 0) eqn:Esl.
  { apply Qle_bool_iff in Esl. split; [|cbn; eauto].
    split; [discriminate|]. intros (_ & _ & _ & H & _). lra. }
  cbn [orb].
  assert (Hs : 0 < position_size).
  { apply Qnot_le_lt. intro H. apply Qle_bool_iff in H. congruence. }
  assert (Ht : 0 < tp_percentage).
  { apply Qnot_le_lt. intro H. apply Qle_bool_iff in H. congruence. }
  assert (Hsl : 0 < sl_percentage).
  { apply Qnot_le_lt. intro H. apply Qle_bool_iff in H. congruence. }
  apply Z.ltb_ge in El.
  destruct (endswith symbol "-USDT") eqn:Ee; cbn [negb].
  - split; [|now left]. split; [auto 10|reflexivity].
  - split; [|eauto]. split; [discriminate|]. intros (_ & _ & _ & _ & H). discriminate.
Qed.

End ValidationExtras.

(** ** The polling loop and the order *)

Section TradingBotExtras.

Import Py PyMore Strategy TradingBot Samples.

Lemma Qfloor_unique (x : Q) (z : Z) :
  inject_Z z <= x -> x < inject_Z z + 1 -> Qfloor x = z.
Proof.
  intros Hlo Hhi. destruct (floor_bounds x) as [Flo Fhi].
  assert (H1 : (z < Qfloor x + 1)%Z).
  { rewrite Zlt_Qlt, inject_Z_plus. change (inject_Z 1) with 1. lra. }
  assert (H2 : (Qfloor x < z + 1)%Z).
  { rewrite Zlt_Qlt, inject_Z_plus. change (inject_Z 1) with 1. lra. }
  lia.
Qed.

(** The floor of a division by a positive constant, between multiples. *)
Lemma floordiv_bounds (x y : Q) :
  0 < y ->
  exists z : Z,
    floordiv x y = inject_Z z /\
    y * inject_Z z <= x /\ x < y * inject_Z z + y.
Proof.
  intro Hy. exists (Qfloor (x / y)). split; [reflexivity|].
  destruct (floor_bounds (x / y)) as [Hlo Hhi].
  assert (E : x == y * (x / y)) by (field; lra).
  split.
  - rewrite E at 2. apply Qmult_le_l; assumption.
  - rewrite E at 1.
    setoid_replace (y * inject_Z (Qfloor (x / y)) + y)
      with (y * (inject_Z (Qfloor (x / y)) + 1)) by ring.
    apply Qmult_lt_l; assumption.
Qed.

(** The boundary the loop waits for, in terms of the five-minute slot the
    clock reading falls in. *)
Lemma next_candle_slot (start_time : Q) (k : Z) :
  300 * inject_Z k <= start_time ->
  start_time < 300 * inject_Z k + 300 ->
  next_candle start_time = (inject_Z k + 1) * 5 * 60.
Proof.
  intros Hlo Hhi. unfold next_candle.
  destruct (floordiv_bounds start_time 60 ltac:(reflexivity)) as (m & Em & Mlo & Mhi).
  rewrite Em.
  assert (Hm1 : (5 * k <= m)%Z).
  { assert (H : (5 * k < m + 1)%Z).
    { rewrite Zlt_Qlt, inject_Z_plus, inject_Z_mult.
      change (inject_Z 1) with 1. change (inject_Z 5) with 5. lra. }
    lia. }
  assert (Hm2 : (m < 5 * k + 5)%Z).
  { rewrite Zlt_Qlt, inject_Z_plus, inject_Z_mult.
    change (inject_Z 5) with 5. lra. }
  assert (Ef : Qfloor (inject_Z m / 5) = k).
  { apply Qfloor_unique.
    - apply Qle_shift_div_l; [reflexivity|].
      setoid_replace (inject_Z k * 5) with (inject_Z (5 * k))
        by (rewrite inject_Z_mult; change (inject_Z 5) with 5; ring).
      rewrite <- Zle_Qle. exact Hm1.
    - apply Qlt_shift_div_r; [reflexivity|].
      setoid_replace ((inject_Z k + 1) * 5) with (inject_Z (5 * k + 5))
        by (rewrite inject_Z_plus, inject_Z_mult; change (inject_Z 5) with 5; ring).
      rewrite <- Zlt_Qlt. exact Hm2. }
  unfold floordiv. now rewrite Ef.
Qed.

(** X20: whatever the clock reads, the loop waits for the next multiple of
    300 seconds: the wait is positive, at most 300 seconds, and ends on a
    five-minute boundary strictly after the reading. *)
Theorem wait_ends_on_next_boundary (start_time : Q) :
  0 < wait_time start_time /\ wait_time start_time <= 300 /\
  exists k : Z,
    next_candle start_time == 300 * inject_Z k /\
    start_time < 300 * inject_Z k /\ 300 * inject_Z k - 300 <= start_time.
Proof.
  destruct (floordiv_bounds start_time 300 ltac:(reflexivity)) as (k & _ & Hlo & Hhi).
  unfold wait_time. rewrite (next_candle_slot start_time k Hlo Hhi).
  split; [lra|]. split; [lra|].
  exists (k + 1)%Z. rewrite inject_Z_plus. change (inject_Z 1) with 1.
  split; [ring|]. split; lra.
Qed.

(** X21: the sleep at the end of a cycle is between 1 and 298 seconds, and
    it ends 2 seconds before the next five-minute boundary whenever at
    least 3 seconds are left to that boundary. *)
Theorem sleep_ends_before_boundary (now : Q) :
  1 <= sleep_time now /\ sleep_time now <= 298 /\
  (fmod now 300 <= 297 ->
   now + sleep_time now == 300 * (floordiv now 300 + 1) - 2).
Proof.
  unfold sleep_time, fmod.
  destruct (floordiv_bounds now 300 ltac:(reflexivity)) as (k & -> & Hlo & Hhi).
  unfold max2.
  destruct (ltb 1 (300 - (now - 300 * inject_Z k) - 2)) eqn:E.
  - apply ltb_lt in E. split; [lra|]. split; [lra|]. intros _. ring.
  - apply ltb_ge in E. split; [lra|]. split; [lra|]. intro H. lra.
Qed.

Lemma sleep_ends_before_boundary_witness :
  1 <= sleep_time 1000 /\ sleep_time 1000 <= 298 /\
  (fmod 1000 300 <= 297 ->
   1000 + sleep_time 1000 == 300 * (floordiv 1000 300 + 1) - 2).
Proof.
  exact (sleep_ends_before_boundary 1000).
Defined.

(** X22: a cycle that resumes exactly when its sleep ends wakes at the very
    next five-minute boundary if more than one second was left to it when
    the sleep was computed, and skips that boundary for the one 300 seconds
    later if at most one second was left. *)
Theorem sleep_then_wait (now : Q) :
  (fmod now 300 < 299 ->
   next_candle (now + sleep_time now) == 300 * (floordiv now 300 + 1)) /\
  (299 <= fmod now 300 ->
   next_candle (now + sleep_time now) == 300 * (floordiv now 300 + 2)).
Proof.
  unfold sleep_time, fmod.
  destruct (floordiv_bounds now 300 ltac:(reflexivity)) as (k & -> & Hlo & Hhi).
  unfold max2.
  destruct (ltb 1 (300 - (now - 300 * inject_Z k) - 2)) eqn:E.
  - apply ltb_lt in E. split; intro H; [|lra].
    rewrite (next_candle_slot _ k); [ring|lra|lra].
  - apply ltb_ge in E. split; intro H.
    + rewrite (next_candle_slot _ k); [ring|lra|lra].
    + rewrite (next_candle_slot _ (k + 1));
        rewrite ?inject_Z_plus; change (inject_Z 1) with 1; [ring|lra|lra].
Qed.

Lemma sleep_then_wait_witness :
  next_candle (1000 + sleep_time 1000) == 300 * (floordiv 1000 300 + 1) /\
  next_candle ((2999 # 10) + sleep_time (2999 # 10))
  == 300 * (floordiv (2999 # 10) 300 + 2).
Proof.
  split.
  - apply (proj1 (sleep_then_wait 1000)). vm_compute. reflexivity.
  - apply (proj2 (sleep_then_wait (2999 # 10))). vm_compute. discriminate.
Defined.

(** X23: [execute_trade] hands at most one order to the API, and none when
    the fetched frame is empty or the price is zero; it returns True exactly
    when it handed over an order that the API accepted.  The order is for
    the bot's symbol, buys for a long signal and sells for a short one,
    carries the strategy's leverage, and its size times the price is the
    configured USD amount: leverage does not enter the size. *)
Theorem execute_trade_places_one_order
    (strategy : BandStrategy) (symbol : string) (fetched : DataFrame)
    (api_accepts : Order -> bool) (sig : signal) (current_price : Q) :
  let result := execute_trade strategy symbol fetched api_accepts sig current_price in
  (List.length (snd result) <= 1)%nat /\
  (fetched = [] \/ current_price == 0 -> result = (false, [])) /\
  (fst result = true <->
   exists o : Order, snd result = [o] /\ api_accepts o = true) /\
  (forall o : Order,
      In o (snd result) ->
      order_symbol o = symbol /\
      order_side o = match sig with long => "buy" | short => "sell" end%string /\
      order_leverage o = leverage strategy /\
      order_size o * current_price == position_size_usd strategy).
Proof.
  cbv zeta. unfold execute_trade.
  destruct fetched as [|r0 fetched].
  { cbn. split; [lia|]. split; [reflexivity|]. split; [|tauto].
    split; [discriminate|]. intros (o & H & _). discriminate. }
  destruct (iloc (r0 :: fetched) (-1)) as [latest|].
  2:{ cbn. split; [lia|]. split; [reflexivity|]. split; [|tauto].
      split; [discriminate|]. intros (o & H & _). discriminate. }
  destruct (calculate_entry_levels strategy current_price _ _) as [tp sl].
  destruct (Qeq_bool current_price 0) eqn:E.
  { cbn. split; [lia|]. split; [reflexivity|]. split; [|tauto].
    split; [discriminate|]. intros (o & H & _). discriminate. }
  assert (Hp : ~ current_price == 0).
  { intro H. apply Qeq_bool_iff in H. congruence. }
  cbn [fst snd List.length]. split; [lia|]. split.
  { intros [H|H]; [discriminate|contradiction]. }
  split.
  - split.
    + intro H. eexists. split; [reflexivity|exact H].
    + intros (o & Ho & Hacc). injection Ho as <-. exact Hacc.
  - intros o [<-|[]]. cbn.
    repeat split; [now destruct sig|]. field. exact Hp.
Qed.

End TradingBotExtras.

(** ** Requests to the exchange *)

Section BlofinExtras.

Import Py PyMore BlofinAPI.

Local Open Scope string_scope.

Lemma rstrip_decomposes (s : string) (c : ascii) :
  exists k : nat, s = rstrip s c ++ repeat_char c k.
Proof.
  induction s as [|a s [k IH]]; cbn [rstrip].
  - exists 0%nat. reflexivity.
  - destruct (rstrip s c) as [|b t] eqn:E.
    + destruct (Ascii.eqb_spec a c) as [->|Hne].
      * exists (S k). cbn. now rewrite IH at 1.
      * exists k. cbn. now rewrite IH at 1.
    + exists k. cbn. rewrite IH at 1. reflexivity.
Qed.

Lemma rstrip_no_trailing (s : string) (c : ascii) :
  forall t : string, rstrip s c <> t ++ String c "".
Proof.
  induction s as [|a s IH]; intros t; cbn [rstrip].
  - destruct t; discriminate.
  - destruct (rstrip s c) as [|b u] eqn:E.
    + destruct (Ascii.eqb_spec a c) as [->|Hne].
      * destruct t; discriminate.
      * destruct t as [|x [|y t]]; cbn; congruence.
    + destruct t as [|x t]; cbn.
      * intro H. injection H as _ H. discriminate.
      * intro H. injection H as _ H. apply (IH t). exact H.
Qed.

(** X24: the URL of a request is the configured base URL without its
    trailing slashes, followed by the endpoint with a leading slash: the
    base part never ends in a slash and differs from the configured one
    only by the slashes removed, and the endpoint part always starts with a
    slash and is the endpoint itself if that already did. *)
Theorem request_url_is_joined_by_a_slash (base_url endpoint : string) :
  request_url base_url endpoint
  = init_base_url base_url ++ request_endpoint endpoint /\
  (exists k : nat, base_url = init_base_url base_url ++ repeat_char "/" k) /\
  (forall t : string, init_base_url base_url <> t ++ "/") /\
  (exists rest : string, request_endpoint endpoint = String "/" rest) /\
  (forall rest : string,
      endpoint = String "/" rest -> request_endpoint endpoint = endpoint) /\
  request_endpoint (request_endpoint endpoint) = request_endpoint endpoint.
Proof.
  split; [reflexivity|].
  split; [apply rstrip_decomposes|].
  split; [apply rstrip_no_trailing|].
  unfold request_endpoint, startswith_char.
  destruct endpoint as [|a e].
  - cbn. repeat split; eauto. intros rest H. discriminate.
  - destruct (Ascii.eqb_spec a "/") as [->|Hne]; cbn [negb].
    + repeat split; eauto.
    + split; [eauto|]. split.
      * intros rest H. congruence.
      * cbn. reflexivity.
Qed.

Local Close Scope string_scope.

Lemma dict_get_set_same (d : list (string * string)) (k v : string) :
  dict_get (dict_set d k v) k = Some v.
Proof.
  induction d as [|[k' v'] d IH]; cbn.
  - now rewrite String.eqb_refl.
  - destruct (String.eqb_spec k k') as [->|Hne]; cbn.
    + now rewrite String.eqb_refl.
    + apply String.eqb_neq in Hne. now rewrite Hne.
Qed.

Lemma dict_get_set_other (d : list (string * string)) (k v k0 : string) :
  k0 <> k -> dict_get (dict_set d k v) k0 = dict_get d k0.
Proof.
  intro Hne. induction d as [|[k' v'] d IH]; cbn.
  - apply String.eqb_neq in Hne. now rewrite Hne.
  - destruct (String.eqb_spec k k') as [->|Hne']; cbn.
    + apply String.eqb_neq in Hne. now rewrite Hne.
    + now rewrite IH.
Qed.

(** X25: [place_order] always sends the set-leverage request first and
    leaves the requests sent before untouched.  The order request goes out
    exactly when the exchange accepted the leverage; otherwise the call
    fails with the error of the set-leverage request and nothing more is
    sent. *)
Theorem place_order_sets_leverage_first
    (str_float : Q -> string) (str_int : Z -> string) (Response : Type)
    (transport : list Request -> Request -> outcome Response)
    (sent : list Request) (symbol side : string) (size : Q)
    (take_profit stop_loss : option Q) (leverage : Z) :
  let result := place_order str_float str_int Response transport sent
                            symbol side size take_profit stop_loss leverage in
  let lev_req := mkRequest "POST" "/account/set-leverage"
                   [("instId"%string, symbol); ("lever"%string, str_int leverage)] in
  let ord_req := mkRequest "POST" "/trade/order"
                   (order_data str_float symbol side size take_profit stop_loss) in
  (exists rest : list Request,
      fst result = sent ++ lev_req :: rest /\ (List.length rest <= 1)%nat) /\
  (forall e : exception,
      transport sent lev_req = inl e ->
      result = (sent ++ [lev_req], inl e)) /\
  ((exists r : Response, transport sent lev_req = inr r) <->
   fst result = sent ++ [lev_req; ord_req]) /\
  (forall r : Response,
      snd result = inr r ->
      fst result = sent ++ [lev_req; ord_req] /\
      transport (sent ++ [lev_req]) ord_req = inr r).
Proof.
  cbv zeta. unfold place_order, set_leverage, request.
  change (request_endpoint "/account/set-leverage") with "/account/set-leverage"%string.
  change (request_endpoint "/trade/order") with "/trade/order"%string.
  set (lev_req := mkRequest "POST" "/account/set-leverage" _).
  set (ord_req := mkRequest "POST" "/trade/order" _).
  destruct (transport sent lev_req) as [e|r] eqn:E; cbn [fst snd].
  - split; [exists []; split; [reflexivity|cbn; lia]|].
    split; [intros e' He'; congruence|].
    split.
    + split; [intros [r Hr]; discriminate|].
      intro H. apply app_inv_head in H. discriminate.
    + intros r Hr. discriminate.
  - assert (Happ : (sent ++ [lev_req]) ++ [ord_req] = sent ++ [lev_req; ord_req])
      by (rewrite <- app_assoc; reflexivity).
    rewrite Happ.
    split; [exists [ord_req]; split; [reflexivity|cbn; lia]|].
    split; [intros e He; discriminate|].
    split; [split; eauto|].
    intros r' Hr'. split; [reflexivity|exact Hr'].
Qed.

(** X26: the body of the order request always carries the instrument, the
    isolated margin mode, the side, the market order type and the size; the
    take-profit trigger and its order price -1 are present exactly when a
    take profit is given, and likewise for the stop loss. *)
Theorem order_data_fields
    (str_float : Q -> string) (symbol side : string) (size : Q)
    (take_profit stop_loss : option Q) :
  let data := order_data str_float symbol side size take_profit stop_loss in
  dict_get data "instId" = Some symbol /\
  dict_get data "tdMode" = Some "isolated"%string /\
  dict_get data "side" = Some side /\
  dict_get data "ordType" = Some "market"%string /\
  dict_get data "sz" = Some (str_float size) /\
  dict_get data "tpTriggerPrice" = option_map str_float take_profit /\
  dict_get data "tpOrderPrice" = option_map (fun _ => "-1"%string) take_profit /\
  dict_get data "slTriggerPrice" = option_map str_float stop_loss /\
  dict_get data "slOrderPrice" = option_map (fun _ => "-1"%string) stop_loss.
Proof.
  cbv zeta. unfold order_data.
  destruct take_profit as [tp|]; destruct stop_loss as [sl|];
    cbn; repeat split; reflexivity.
Qed.

End BlofinExtras.

(** ** The market analysis of test_bands.py *)

Section AnalysisExtras.

Import Py PyMore TestBands.

Lemma min_nan_le_max_nan (e : Q) (s : option Q) : min_nan e s <= max_nan e s.
Proof.
  destruct s as [v|]; cbn; [|apply Qle_refl].
  unfold min2, max2.
  destruct (ltb v e) eqn:E1; destruct (ltb e v) eqn:E2;
    try apply ltb_lt in E1; try apply ltb_ge in E1;
    try apply ltb_lt in E2; try apply ltb_ge in E2; lra.
Qed.

(** X27: what [analyze_market_conditions] reports is consistent: the lower
    band is not above the upper band, the band distance is their
    difference and not negative, and the two price distances add up to it;
    the condition is ABOVE_BANDS exactly when the price is above the upper
    band, BELOW_BANDS exactly when it is below the lower band, and
    BETWEEN_BANDS otherwise; a bullish crossover is only reported with
    ABOVE_BANDS and a bearish one only with BELOW_BANDS. *)
Theorem analysis_is_consistent (df : Strategy.DataFrame) (a : Analysis) :
  analyze_market_conditions df = inr a ->
  lower_band a <= upper_band a /\
  0 <= band_distance a /\
  price_to_upper a + price_to_lower a == band_distance a /\
  (condition a = ABOVE_BANDS <-> upper_band a < current_price a) /\
  (condition a = BELOW_BANDS <-> current_price a < lower_band a) /\
  (condition a = BETWEEN_BANDS <->
   lower_band a <= current_price a /\ current_price a <= upper_band a) /\
  (crossover a = Some BULLISH_CROSSOVER -> condition a = ABOVE_BANDS) /\
  (crossover a = Some BEARISH_CROSSOVER -> condition a = BELOW_BANDS).
Proof.
  unfold analyze_market_conditions.
  destruct (Strategy.iloc df (-1)) as [latest|]; [|discriminate].
  destruct (Strategy.iloc df (-2)) as [prev|]; [|discriminate].
  unfold ret. intro H. injection H as <-.
  cbn [lower_band upper_band band_distance price_to_upper price_to_lower
       condition crossover current_price].
  pose proof (min_nan_le_max_nan (Strategy.EMA34 latest) (Strategy.SMA21 latest)) as Hle.
  set (up := max_nan (Strategy.EMA34 latest) (Strategy.SMA21 latest)) in *.
  set (lo := min_nan (Strategy.EMA34 latest) (Strategy.SMA21 latest)) in *.
  set (px := Strategy.close (Strategy.candle latest)) in *.
  split; [exact Hle|]. split; [lra|]. split; [ring|].
  destruct (ltb up px) eqn:Ea; [apply ltb_lt in Ea|apply ltb_ge in Ea];
    (destruct (ltb px lo) eqn:Eb; [apply ltb_lt in Eb|apply ltb_ge in Eb]);
    rewrite ?andb_true_r, ?andb_false_r;
    repeat match goal with
           | |- context [if ?b then _ else _] => destruct b
           end;
    repeat split; intros; try discriminate; try reflexivity; try lra;
    try (exfalso; lra);
    match goal with
    | H : _ /\ _ |- _ => destruct H; exfalso; lra
    | _ => idtac
    end.
Qed.

Lemma analysis_is_consistent_witness :
  exists a : Analysis,
    analyze_market_conditions [Samples.row_at 0 100; Samples.row_at 300000 110] = inr a /\
    (lower_band a <= upper_band a /\
     0 <= band_distance a /\
     price_to_upper a + price_to_lower a == band_distance a /\
     (condition a = ABOVE_BANDS <-> upper_band a < current_price a) /\
     (condition a = BELOW_BANDS <-> current_price a < lower_band a) /\
     (condition a = BETWEEN_BANDS <->
      lower_band a <= current_price a /\ current_price a <= upper_band a) /\
     (crossover a = Some BULLISH_CROSSOVER -> condition a = ABOVE_BANDS) /\
     (crossover a = Some BEARISH_CROSSOVER -> condition a = BELOW_BANDS)).
Proof.
  eexists. split; [vm_compute; reflexivity|].
  apply (analysis_is_consistent [Samples.row_at 0 100; Samples.row_at 300000 110]).
  vm_compute. reflexivity.
Defined.

End AnalysisExtras.
